(** * SearchAgent: a shallow embedding of [agents/search/search_agent.js]

    The development follows the source file from top to bottom:
    - [JsString]: the string primitives the agent relies on
      ([toLowerCase], [includes], [replace], [split], [trim]);
    - [JsNum]: JavaScript numbers, read as real numbers plus [NaN];
    - [Search]: the agent itself (constructor, query processing, the two
      search strategies, ranking, snippets, input validation), written in a
      small state-and-error monad over the document store and an I/O log;
    - [Double]: the two purely numeric functions of the agent, the cosine
      similarity and the score of a sentence, in IEEE binary64.

    Numbers come in two readings. The pipeline of [Search] is written over
    [R] and [NaN] ([NaN] is kept because [0/0] is reachable in the text
    score): what is stated of it is about order, membership, counts and
    calls. What is stated of the value a numeric function returns is stated
    of its binary64 version in [Double], where rounding is visible.
    Strings are sequences of code units below 256, read as Latin-1. *)

From Stdlib Require Import List String Ascii Bool Arith ZArith Lia.
From Stdlib Require Import Reals Lra Sorting.Sorted Sorting.Permutation.
From Stdlib Require Floats.
Import ListNotations.

Set Implicit Arguments.
#[local] Set Warnings "-inexact-float".

(* ===================================================================== *)
(** ** Strings *)
(* ===================================================================== *)

Module JsString.

Definition code (c : ascii) : nat := nat_of_ascii c.

Definition between (lo hi : nat) (c : ascii) : bool :=
  (lo <=? code c) && (code c <=? hi).

(** [\d], [[A-Z]], [[a-z]]. *)
Definition is_digit : ascii -> bool := between 48 57.
Definition is_upper : ascii -> bool := between 65 90.
Definition is_lower : ascii -> bool := between 97 122.

Definition is_alnum (c : ascii) : bool :=
  is_digit c || is_upper c || is_lower c.

(** [\w] is [[A-Za-z0-9_]]: the underscore is a word character. *)
Definition is_word (c : ascii) : bool :=
  is_alnum c || (code c =? 95).

(** [\s] restricted to code units below 256: TAB, LF, VT, FF, CR, SPACE and
    NO-BREAK SPACE. *)
Definition is_space (c : ascii) : bool :=
  between 9 13 c || (code c =? 32) || (code c =? 160).

(** [String.prototype.toLowerCase] on one code unit: [A-Z], and the Latin-1
    capitals U+00C0..U+00DE except the multiplication sign U+00D7. *)
Definition lower_char (c : ascii) : ascii :=
  if is_upper c then ascii_of_nat (code c + 32)
  else if between 192 222 c && negb (code c =? 215)
       then ascii_of_nat (code c + 32)
       else c.

Fixpoint toLowerCase (s : string) : string :=
  match s with
  | EmptyString => EmptyString
  | String c s' => String (lower_char c) (toLowerCase s')
  end.

(** [s.replace(/[^.../g, '')] with a negated character class keeps the
    characters of the class. *)
Fixpoint keep (p : ascii -> bool) (s : string) : string :=
  match s with
  | EmptyString => EmptyString
  | String c s' => if p c then String c (keep p s') else keep p s'
  end.

Definition starts_with_sep (sep : ascii -> bool) (s : string) : bool :=
  match s with
  | EmptyString => false
  | String c _ => sep c
  end.

(** [s.split(/[sep]+/)]: the pieces between maximal runs of separator
    characters. A leading or trailing run leaves an empty piece at that end,
    and the empty string splits into one empty piece. *)
Fixpoint split (sep : ascii -> bool) (s : string) : list string :=
  match s with
  | EmptyString => [EmptyString]
  | String c s' =>
      if sep c then
        if starts_with_sep sep s' then split sep s'
        else EmptyString :: split sep s'
      else
        match split sep s' with
        | p :: ps => String c p :: ps
        | [] => [String c EmptyString]
        end
  end.

(** [haystack.includes(needle)]. *)
Fixpoint includes (haystack needle : string) : bool :=
  prefix needle haystack
  || match haystack with
     | EmptyString => false
     | String _ h' => includes h' needle
     end.

Fixpoint trim_start (s : string) : string :=
  match s with
  | EmptyString => EmptyString
  | String c s' => if is_space c then trim_start s' else s
  end.

Fixpoint rev_string (s acc : string) : string :=
  match s with
  | EmptyString => acc
  | String c s' => rev_string s' (String c acc)
  end.

(** [String.prototype.trim]. *)
Definition trim (s : string) : string :=
  rev_string (trim_start (rev_string (trim_start s) EmptyString)) EmptyString.

(** A JavaScript string is truthy when it is not empty. *)
Definition truthy (s : string) : bool :=
  match s with EmptyString => false | _ => true end.

Fixpoint all_chars (p : ascii -> bool) (s : string) : bool :=
  match s with
  | EmptyString => true
  | String c s' => p c && all_chars p s'
  end.

End JsString.

(* ===================================================================== *)
(** ** Numbers *)
(* ===================================================================== *)

Module JsNum.

Local Open Scope R_scope.

(** A JavaScript number: a real, or [NaN]. Infinities are left out: the only
    division of the agent whose divisor can vanish is a quotient of two array
    lengths in which the dividend counts a sub-array of the divisor's. *)
Inductive num : Type :=
| Fin (r : R)
| NaN.

Definition add (a b : num) : num :=
  match a, b with
  | Fin x, Fin y => Fin (x + y)
  | _, _ => NaN
  end.

Definition mul (a b : num) : num :=
  match a, b with
  | Fin x, Fin y => Fin (x * y)
  | _, _ => NaN
  end.

Definition sub (a b : num) : num :=
  match a, b with
  | Fin x, Fin y => Fin (x - y)
  | _, _ => NaN
  end.

(** [matched.length / all.length]: [0 / 0] is [NaN]. *)
Definition div_length (matched all : nat) : num :=
  match all with
  | O => NaN
  | S _ => Fin (INR matched / INR all)
  end.

(** [Math.min(1, x)]. *)
Definition min1 (x : num) : num :=
  match x with
  | Fin r => Fin (Rmin 1 r)
  | NaN => NaN
  end.

Definition Rleb (x y : R) : bool := if Rle_dec x y then true else false.
Definition Rltb (x y : R) : bool := if Rlt_dec x y then true else false.
Definition Reqb (x y : R) : bool := if Req_dec_T x y then true else false.

(** [x >= m]; every comparison with [NaN] is false. *)
Definition geb (x : num) (m : R) : bool :=
  match x with
  | Fin r => Rleb m r
  | NaN => false
  end.

(** [x > 0], the test [Array.prototype.sort] applies to what its comparator
    returns; a [NaN] answer counts as [0]. *)
Definition positive (x : num) : bool :=
  match x with
  | Fin r => Rltb 0 r
  | NaN => false
  end.

(** Truthiness of a number: neither [0] nor [NaN]. *)
Definition truthy (x : num) : bool :=
  match x with
  | Fin r => negb (Reqb r 0)
  | NaN => false
  end.

(** [x >= y] on numbers, as a proposition. *)
Definition ge (x y : num) : Prop :=
  match x, y with
  | Fin a, Fin b => b <= a
  | _, _ => False
  end.

(** [x] is [NaN] or not negative. *)
Definition nonneg (x : num) : Prop :=
  match x with
  | Fin r => 0 <= r
  | NaN => True
  end.

(** [lo <= x <= hi]. *)
Definition within (lo hi : R) (x : num) : Prop :=
  match x with
  | Fin r => lo <= r <= hi
  | NaN => False
  end.

End JsNum.

(* ===================================================================== *)
(** ** Arrays *)
(* ===================================================================== *)

Module JsArray.

Section Sort.
Variable A : Type.
(** [after a b] holds when the comparator applied to [(a, b)] is positive,
    that is, when [a] has to come after [b]. *)
Variable after : A -> A -> bool.

Fixpoint insert (x : A) (l : list A) : list A :=
  match l with
  | [] => [x]
  | y :: l' => if after x y then y :: insert x l' else x :: l
  end.

(** [Array.prototype.sort(comparator)]: the sort is stable, so with a
    consistent comparator its result is the stable insertion sort's. *)
Fixpoint sort (l : list A) : list A :=
  match l with
  | [] => []
  | x :: l' => insert x (sort l')
  end.
End Sort.

(** [a.slice(0, n)] for a count [n]. *)
Definition slice0 (A : Type) (n : nat) (l : list A) : list A := firstn n l.

(** [a.some(p)]. *)
Definition some (A : Type) (p : A -> bool) (l : list A) : bool := existsb p l.

(** [a.includes(x)] on an array of strings. *)
Definition includes (x : string) (l : list string) : bool :=
  existsb (String.eqb x) l.

End JsArray.

(* ===================================================================== *)
(** ** The search agent *)
(* ===================================================================== *)

Module Search.

Import JsString JsNum.
Local Open Scope string_scope.
Local Open Scope nat_scope.

(** *** Data *)

(** [new Error(message)]. *)
Inductive Error : Type :=
| JsError (message : string).

Inductive EntityType : Type := DATE | PERSON | ORGANIZATION.

Record Entity : Type := {
  ent_text : string;
  ent_type : EntityType
}.

Inductive Intent : Type := INFORMATION | HOW_TO | DEFINITION | TIME | LOCATION.

Record ProcessedQuery : Type := {
  original : string;
  normalized : string;
  keywords : list string;
  entities : list Entity;
  intent : Intent;
  vector : option (list R)          (* [null] without a vectorizer *)
}.

(** A stored document of the collection [agent_results]. Of an analysed
    entity only its [text] is read. *)
Record Analysis : Type := {
  analysis_entities : option (list string)
}.

Record Output : Type := {
  extracted_text : option string;
  analysis : option Analysis
}.

Record Document : Type := {
  _id : string;
  doc_agent : string;
  output : Output;
  vector_embedding : option (list R);
  doc_metadata : string;
  doc_created_at : string
}.

(** [doc.vector_embedding = v]. *)
Definition set_vector_embedding (doc : Document) (v : list R) : Document :=
  {| _id := _id doc;
     doc_agent := doc_agent doc;
     output := output doc;
     vector_embedding := Some v;
     doc_metadata := doc_metadata doc;
     doc_created_at := doc_created_at doc |}.

(** [{ ...doc, score }]. *)
Record Scored : Type := {
  document : Document;
  score : num
}.

Record Snippet : Type := {
  snippet_text : string;
  snippet_score : R
}.

Record Result : Type := {
  id : string;
  agent : string;
  result_score : num;
  snippets : list Snippet;
  metadata : string;
  created_at : string
}.

(** The object [_process] returns. Its [summary] field is the text that
    [generateSummary] renders from [results]; it is not part of the model. *)
Record Response : Type := {
  response_query : string;
  processed_query : ProcessedQuery;
  results : list Result;
  total_results : nat;
  search_type : string
}.

(** *** Input *)

Inductive JsValue : Type :=
| JUndefined
| JNull
| JBool (b : bool)
| JNumber (n : num)
| JString (s : string)
| JObject.

(** [!v] is false. *)
Definition truthy_value (v : JsValue) : bool :=
  match v with
  | JUndefined | JNull => false
  | JBool b => b
  | JNumber n => JsNum.truthy n
  | JString s => JsString.truthy s
  | JObject => true
  end.

Record DateRange : Type := {
  range_start : string;
  range_end : string
}.

Record Filters : Type := {
  filter_agent : option string;
  filter_dateRange : option DateRange
}.

Record Input : Type := {
  query : JsValue;
  filters : option Filters
}.

(** *** The document store and the encoder *)

Record VectorSearch : Type := {
  queryVector : option (list R);
  path : string;
  numCandidates : nat;
  limit : nat;
  index : string
}.

(** The query objects the agent builds: [$or] is the pair of the regular
    expression source and the keywords matched as whole words. *)
Record Query : Type := {
  q_or : option (string * list string);
  q_vectorSearch : option VectorSearch;
  q_agent : option string;
  q_created_at : option DateRange
}.

Record CollectionOptions : Type := {
  indexes : option (list string)      (* the [name] of each index *)
}.

Record CollectionInfo : Type := {
  options : option CollectionOptions
}.

(** What a connection answers. The store is an external collaborator: how it
    evaluates a query ([db_matches]), which collections it lists and what its
    vector index returns are parameters. With [db_failure = Some e] every
    command is rejected with [e] (the store is unreachable). *)
Record Db : Type := {
  db_failure : option Error;
  db_matches : Query -> Document -> bool;
  db_collections : list CollectionInfo;
  db_vectorSearch : Query -> list Document -> list (R * Document)
}.

(** [vectorizer.encode(text)] resolves to an embedding or rejects. When
    several calls are pending together and more than one of them rejects,
    which rejection comes first is a matter of the encoder's timing:
    [rejects_first errors] is the position of the earliest rejection among
    [errors], the rejections listed in call order. *)
Record Vectorizer : Type := {
  encode : string -> Error + list R;
  rejects_first : list Error -> nat
}.

(** The calls that reach the store or the encoder. [InsertOne] is the write
    of the ingestion; the search agent has no call to it. *)
Inductive Event : Type :=
| ListCollections
| Find (q : Query) (n : nat)
| Aggregate (q : Query)
| Encode (text : string)
| InsertOne (doc : Document).

Definition is_write (ev : Event) : bool :=
  match ev with
  | InsertOne _ => true
  | _ => false
  end.

(** The world outside the agent: the documents of [agent_results] as the
    store holds them, and the store and encoder calls made so far. *)
Record World : Type := {
  agent_results : list Document;
  io_log : list Event
}.

(** *** Asynchronous code: state, errors and the I/O log *)

(** An [async] function is a computation over the world that ends in a
    rejection or a value; the world it leaves behind is kept in both cases. *)
Definition M (A : Type) : Type := World -> (Error + A) * World.

Definition ret (A : Type) (x : A) : M A := fun w => (inr x, w).

Definition throw (A : Type) (e : Error) : M A := fun w => (inl e, w).

Definition bind (A B : Type) (c : M A) (k : A -> M B) : M B :=
  fun w =>
    match c w with
    | (inl e, w') => (inl e, w')
    | (inr x, w') => k x w'
    end.

Notation "x <- c ;; k" := (bind c (fun x => k))
  (at level 61, c at next level, right associativity).

Definition record (ev : Event) (w : World) : World :=
  {| agent_results := agent_results w; io_log := io_log w ++ [ev] |}.

(** [xs.map(async x => ...)]: [map] starts every callback, each of which
    runs up to its first [await], so all the calls are issued, in array
    order, whether or not one of them fails later. Each callback settles:
    it rejects or it fulfils. *)
Fixpoint settle_all (A : Type) (ps : list (M A))
    : World -> list (Error + A) * World :=
  fun w =>
    match ps with
    | [] => ([], w)
    | p :: ps' =>
        let (r, w1) := p w in
        let (rs, w2) := settle_all ps' w1 in
        (r :: rs, w2)
    end.

(** The rejections and the values of settled callbacks, in array order. *)
Fixpoint rejections (A : Type) (rs : list (Error + A)) : list Error :=
  match rs with
  | [] => []
  | inl e :: rs' => e :: rejections rs'
  | inr _ :: rs' => rejections rs'
  end.

Fixpoint fulfilled (A : Type) (rs : list (Error + A)) : list A :=
  match rs with
  | [] => []
  | inl _ :: rs' => fulfilled rs'
  | inr x :: rs' => x :: fulfilled rs'
  end.

(** [Promise.all(promises)] fulfils with all the values when no promise
    rejects, and otherwise rejects with the rejection that happens first in
    time: [first] tells which one that is, by its position among the
    rejections (a position past the last one counts as the first). *)
Definition all_or_rejection (A : Type) (first : list Error -> nat)
    (rs : list (Error + A)) : Error + list A :=
  match rejections rs with
  | [] => inr (fulfilled rs)
  | e :: es => inl (nth (first (e :: es)) (e :: es) e)
  end.

Definition promise_all (A : Type) (first : list Error -> nat)
    (ps : list (M A)) : M (list A) :=
  fun w =>
    let (rs, w') := settle_all ps w in
    (all_or_rejection first rs, w').

(** [cursor.limit(n)]: a limit of [0] is no limit. *)
Definition cursor_limit (n : nat) (l : list Document) : list Document :=
  match n with
  | O => l
  | S _ => firstn n l
  end.

(** A command sent to the store is logged, then answered. *)
Definition command (A : Type) (d : Db) (ev : Event)
    (answer : list Document -> A) : M A :=
  fun w =>
    let w' := record ev w in
    match db_failure d with
    | Some e => (inl e, w')
    | None => (inr (answer (agent_results w)), w')
    end.

(** [db.collection('agent_results').find(q).limit(n).toArray()]: the
    documents come back as fresh objects, copies of the stored ones. *)
Definition find_limit_toArray (d : Db) (q : Query) (n : nat)
    : M (list Document) :=
  command d (Find q n)
    (fun docs => cursor_limit n (filter (db_matches d q) docs)).

(** [db.listCollections({ name: 'agent_results' }).toArray()]. *)
Definition listCollections_toArray (d : Db) : M (list CollectionInfo) :=
  command d ListCollections (fun _ => db_collections d).

(** [db.collection('agent_results').aggregate([{ $match: q },
      { $project: { score: { $meta: 'vectorSearchScore' },
                    document: '$$ROOT' } }]).toArray()]. *)
Definition aggregate_toArray (d : Db) (q : Query) : M (list (R * Document)) :=
  command d (Aggregate q) (fun docs => db_vectorSearch d q docs).

(** [await vectorizer.encode(text)]. *)
Definition encode_call (v : Vectorizer) (text : string) : M (list R) :=
  fun w => (encode v text, record (Encode text) w).

(** [db.collection('agent_results').insertOne(doc)], the command with which
    the ingestion stores a processed document
    ([netlify/functions/process-document-simple.js], [saveToMongoDB]): the
    store appends the document. It is the command that changes the stored
    documents; nothing in the search agent sends it. *)
Definition insertOne (d : Db) (doc : Document) : M unit :=
  fun w =>
    match db_failure d with
    | Some e => (inl e, record (InsertOne doc) w)
    | None =>
        (inr tt,
         {| agent_results := agent_results w ++ [doc];
            io_log := io_log w ++ [InsertOne doc] |})
    end.

(** *** The agent *)

(** The options object handed to the constructor; [None] is an absent
    property. [maxResults] is taken to be a count, as its default 10 is: a
    negative or fractional value, which [||] would let through as well, is
    outside the model. *)
Record Options : Type := {
  opt_db : option Db;
  opt_useVectorSearch : option bool;
  opt_vectorizer : option Vectorizer;
  opt_maxResults : option nat;
  opt_minScore : option num
}.

Record SearchAgent : Type := {
  db : option Db;
  useVectorSearch : bool;
  vectorizer : option Vectorizer;
  maxResults : nat;
  minScore : R
}.

(** [x || d] for an optional number. *)
Definition or_number (x : option num) (d : R) : R :=
  match x with
  | Some (Fin r) => if JsNum.truthy (Fin r) then r else d
  | _ => d
  end.

(** [x || d] for an optional count. *)
Definition or_count (x : option nat) (d : nat) : nat :=
  match x with
  | Some (S n) => S n
  | _ => d
  end.

Definition or_false (x : option bool) : bool :=
  match x with
  | Some b => b
  | None => false
  end.

Definition constructor (opts : Options) : SearchAgent :=
  {| db := opt_db opts;
     useVectorSearch := or_false (opt_useVectorSearch opts);
     vectorizer := opt_vectorizer opts;
     maxResults := or_count (opt_maxResults opts) 10;
     minScore := or_number (opt_minScore opts) (5 / 10)%R |}.

(** A method that reads a property of [this.db] or of [this.vectorizer]
    throws a [TypeError] when that field is [null]; so does
    [query.toLowerCase()] when the query is not a string. *)
Definition null_db (property : string) : Error :=
  JsError ("TypeError: Cannot read properties of null (reading '"
           ++ property ++ "')").
Definition null_vectorizer : Error :=
  JsError "TypeError: Cannot read properties of null (reading 'encode')".
Definition not_a_string (query : JsValue) : Error :=
  match query with
  | JUndefined =>
      JsError ("TypeError: Cannot read properties of undefined "
               ++ "(reading 'toLowerCase')")
  | JNull =>
      JsError ("TypeError: Cannot read properties of null "
               ++ "(reading 'toLowerCase')")
  | _ => JsError "TypeError: query.toLowerCase is not a function"
  end.

(** [this.db.property(...)]. *)
Definition with_db (A : Type) (this : SearchAgent) (property : string)
    (k : Db -> M A) : M A :=
  match db this with
  | Some d => k d
  | None => throw A (null_db property)
  end.

Definition with_vectorizer (A : Type) (this : SearchAgent)
    (k : Vectorizer -> M A) : M A :=
  match vectorizer this with
  | Some v => k v
  | None => throw A null_vectorizer
  end.

(** Which of the rejections of a batch of [encode] calls comes first is for
    the encoder to say. Without an encoder every callback throws when it
    reads [this.vectorizer.encode], the first one first. *)
Definition settles_first (this : SearchAgent) : list Error -> nat :=
  match vectorizer this with
  | Some v => rejects_first v
  | None => fun _ => O
  end.

(** *** processQuery *)

(** The three entity patterns are matched by hand. Each starts with [\b]
    followed by a word character, so a match can only start where the
    previous character is not a word character; each ends with a word
    character followed by [\b], so it can only end where the next character
    is not one. A greedy [[a-z]+] that is followed by a space or by [\b] has to
    take the whole run of lower-case letters. *)

Fixpoint span (p : ascii -> bool) (s : string) : string * string :=
  match s with
  | EmptyString => (EmptyString, EmptyString)
  | String c s' =>
      if p c then let (run, rest) := span p s' in (String c run, rest)
      else (EmptyString, s)
  end.

(** [p{n}]: exactly [n] characters of the class, and what follows them. *)
Fixpoint exactly (p : ascii -> bool) (n : nat) (s : string)
    : option (string * string) :=
  match n with
  | O => Some (EmptyString, s)
  | S n' =>
      match s with
      | String c s' =>
          if p c then
            match exactly p n' s' with
            | Some (m, rest) => Some (String c m, rest)
            | None => None
            end
          else None
      | EmptyString => None
      end
  end.

Definition literal (l s : string) : option string :=
  if prefix l s then Some (substring (String.length l) (String.length s) s)
  else None.

(** [\b] after a word character. *)
Definition word_end (rest : string) : bool :=
  negb (starts_with_sep is_word rest).

(** [\d{4}-\d{2}-\d{2}\b] at the start of [s]. *)
Definition date_here (s : string) : option (list string) :=
  match exactly is_digit 4 s with
  | Some (y, r1) =>
      match literal "-" r1 with
      | Some r2 =>
          match exactly is_digit 2 r2 with
          | Some (m, r3) =>
              match literal "-" r3 with
              | Some r4 =>
                  match exactly is_digit 2 r4 with
                  | Some (d, r5) =>
                      if word_end r5 then Some [y ++ "-" ++ m ++ "-" ++ d]
                      else None
                  | None => None
                  end
              | None => None
              end
          | None => None
          end
      | None => None
      end
  | None => None
  end.

(** [[A-Z][a-z]+] followed by a space, at the start of [s]. *)
Definition capitalized_then_space (s : string) : option (string * string) :=
  match s with
  | String c s1 =>
      if is_upper c then
        match span is_lower s1 with
        | (String l ls, String " " rest) => Some (String c (String l ls), rest)
        | _ => None
        end
      else None
  | EmptyString => None
  end.

(** [[A-Z][a-z]+ [A-Z][a-z]+\b] at the start of [s]. *)
Definition person_here (s : string) : option (list string) :=
  match capitalized_then_space s with
  | Some (first, String c s1) =>
      if is_upper c then
        match span is_lower s1 with
        | (String l ls, rest) =>
            if word_end rest
            then Some [first ++ " " ++ String c (String l ls)]
            else None
        | _ => None
        end
      else None
  | _ => None
  end.

(** The first alternative of [(Inc|Corp|LLC|Ltd)] that matches at the start
    of [s] and ends at a word boundary. *)
Fixpoint suffix_here (alternatives : list string) (s : string)
    : option string :=
  match alternatives with
  | [] => None
  | alt :: more =>
      match literal alt s with
      | Some rest => if word_end rest then Some alt else suffix_here more s
      | None => suffix_here more s
      end
  end.

(** [[A-Z][a-z]+ (Inc|Corp|LLC|Ltd)\b] at the start of [s]; the match array
    holds the whole match and the captured group. *)
Definition organization_here (s : string) : option (list string) :=
  match capitalized_then_space s with
  | Some (name, rest) =>
      match suffix_here ["Inc"; "Corp"; "LLC"; "Ltd"] rest with
      | Some suffix => Some [name ++ " " ++ suffix; suffix]
      | None => None
      end
  | None => None
  end.

(** [query.match(pattern)] for a pattern without the [g] flag: the leftmost
    match. [after_word] tells whether the character before [s] is a word
    character. *)
Fixpoint match_from (here : string -> option (list string))
    (after_word : bool) (s : string) : option (list string) :=
  match (if after_word then None else here s) with
  | Some m => Some m
  | None =>
      match s with
      | EmptyString => None
      | String c s' => match_from here (is_word c) s'
      end
  end.

Definition entityPatterns
    : list ((string -> option (list string)) * EntityType) :=
  [ (date_here, DATE);
    (person_here, PERSON);
    (organization_here, ORGANIZATION) ].

Definition extract_entities (query : string) : list Entity :=
  flat_map
    (fun '(pattern, type) =>
       match match_from pattern false query with
       | Some matches =>
           map (fun m => {| ent_text := m; ent_type := type |}) matches
       | None => []
       end)
    entityPatterns.

Definition query_intent (query : string) : Intent :=
  if includes (toLowerCase query) "how" then HOW_TO
  else if includes (toLowerCase query) "what" then DEFINITION
  else if includes (toLowerCase query) "when" then TIME
  else if includes (toLowerCase query) "where" then LOCATION
  else INFORMATION.

(** [query.toLowerCase().replace(/[^\w\s]/g, '').split(/\s+/)
      .filter(word => word.length > 2)]. *)
Definition query_keywords (query : string) : list string :=
  filter (fun word => 2 <? String.length word)
    (split is_space
       (keep (fun c => is_word c || is_space c) (toLowerCase query))).

Definition processQuery (this : SearchAgent) (query : string)
    : M ProcessedQuery :=
  let keywords := query_keywords query in
  let entities := extract_entities query in
  let intent := query_intent query in
  vector <- match vectorizer this with
            | Some v => x <- encode_call v query ;; ret (Some x)
            | None => ret None
            end ;;
  ret {| original := query;
         normalized := toLowerCase query;
         keywords := keywords;
         entities := entities;
         intent := intent;
         vector := vector |}.

(** *** Text search *)

(** [if (input.filters) { if (input.filters.agent) ...;
                          if (input.filters.dateRange) ... }]. *)
Definition agent_filter (input : Input) : option string :=
  match filters input with
  | Some f =>
      match filter_agent f with
      | Some a => if JsString.truthy a then Some a else None
      | None => None
      end
  | None => None
  end.

Definition date_filter (input : Input) : option DateRange :=
  match filters input with
  | Some f => filter_dateRange f
  | None => None
  end.

(** [doc.output.extracted_text || '']. *)
Definition text_or_empty (doc : Document) : string :=
  match extracted_text (output doc) with
  | Some t => t
  | None => ""
  end.

(** Truthiness of [doc.output.extracted_text]. *)
Definition has_text (doc : Document) : bool :=
  JsString.truthy (text_or_empty doc).

Local Open Scope R_scope.

Definition calculateTextScore (result : Document)
    (processedQuery : ProcessedQuery) : num :=
  let keywords := keywords processedQuery in
  let entities := entities processedQuery in
  let normalized := normalized processedQuery in
  let score := Fin 0 in
  (* Check for exact matches *)
  let score :=
    if has_text result
       && includes (toLowerCase (text_or_empty result)) normalized
    then add score (Fin (5 / 10)) else score in
  (* Check for keyword matches *)
  let score :=
    if has_text result then
      let text := toLowerCase (text_or_empty result) in
      let matchedKeywords := filter (fun k => includes text k) keywords in
      add score
        (mul (div_length (List.length matchedKeywords) (List.length keywords))
             (Fin (3 / 10)))
    else score in
  (* Check for entity matches *)
  let score :=
    match analysis (output result) with
    | Some a =>
        match analysis_entities a with
        | Some es =>
            let resultEntities := map toLowerCase es in
            let matchedEntities :=
              filter
                (fun e =>
                   JsArray.includes (toLowerCase (ent_text e)) resultEntities)
                entities in
            if (0 <? List.length entities)%nat then
              add score
                (mul (div_length (List.length matchedEntities)
                                 (List.length entities))
                     (Fin (2 / 10)))
            else score
        | None => score
        end
    | None => score
    end in
  min1 score.

Definition performTextSearch (this : SearchAgent)
    (processedQuery : ProcessedQuery) (input : Input) : M (list Scored) :=
  let searchQuery :=
    {| q_or := Some (normalized processedQuery, keywords processedQuery);
       q_vectorSearch := None;
       q_agent := agent_filter input;
       q_created_at := date_filter input |} in
  results <- with_db this "collection" (fun d =>
               find_limit_toArray d searchQuery (maxResults this)) ;;
  ret (map (fun result =>
              {| document := result;
                 score := calculateTextScore result processedQuery |})
           results).

(** *** Vector search *)

(** The similarity as the pipeline reads it, over the reals; the function
    as it computes, in doubles, is [Double.calculateCosineSimilarity].

    The loop of [calculateCosineSimilarity], run over two arrays of the same
    length: the dot product and the two squared magnitudes. *)
Fixpoint accumulate (vec1 vec2 : list R) (acc : R * R * R) : R * R * R :=
  match vec1, vec2 with
  | x :: vec1', y :: vec2' =>
      let '(dotProduct, mag1, mag2) := acc in
      accumulate vec1' vec2' (dotProduct + x * y, mag1 + x * x, mag2 + y * y)
  | _, _ => acc
  end.

Definition calculateCosineSimilarity (vec1 vec2 : option (list R)) : R :=
  match vec1, vec2 with
  | Some v1, Some v2 =>
      if negb (List.length v1 =? List.length v2)%nat then 0
      else
        let '(dotProduct, mag1, mag2) := accumulate v1 v2 (0, 0, 0) in
        let mag1 := sqrt mag1 in
        let mag2 := sqrt mag2 in
        if Reqb mag1 0 || Reqb mag2 0 then 0
        else dotProduct / (mag1 * mag2)
  | _, _ => 0
  end.

(** The comparator [(a, b) => b.score - a.score] returns a positive number. *)
Definition lower_score (a b : Scored) : bool :=
  positive (sub (score b) (score a)).

Definition performMongoDBVectorSearch (this : SearchAgent)
    (processedQuery : ProcessedQuery) (input : Input) : M (list Scored) :=
  let searchQuery :=
    {| q_or := None;
       q_vectorSearch :=
         Some {| queryVector := vector processedQuery;
                 path := "vector_embedding";
                 numCandidates := (maxResults this * 10)%nat;
                 limit := maxResults this;
                 index := "vector_index" |};
       q_agent := agent_filter input;
       q_created_at := date_filter input |} in
  results <- with_db this "collection"
               (fun d => aggregate_toArray d searchQuery) ;;
  ret (map (fun result =>
              {| document := snd result; score := Fin (fst result) |})
           results).

Definition performInMemoryVectorSearch (this : SearchAgent)
    (processedQuery : ProcessedQuery) (input : Input) : M (list Scored) :=
  let query :=
    {| q_or := None;
       q_vectorSearch := None;
       q_agent := agent_filter input;
       q_created_at := date_filter input |} in
  documents <- with_db this "collection"
                 (fun d => find_limit_toArray d query 1000) ;;
  (* Calculate vector for each document if not already present *)
  documentsWithVectors <-
    promise_all (settles_first this)
      (map (fun doc =>
              match vector_embedding doc with
              | None =>
                  let text := text_or_empty doc in
                  v <- with_vectorizer this (fun enc => encode_call enc text) ;;
                  ret (set_vector_embedding doc v)
              | Some _ => ret doc
              end)
           documents) ;;
  (* Calculate similarity scores *)
  let scoredDocuments :=
    map (fun doc =>
           {| document := doc;
              score := Fin (calculateCosineSimilarity
                              (vector processedQuery)
                              (vector_embedding doc)) |})
        documentsWithVectors in
  (* Sort by score and take top results *)
  ret (JsArray.slice0 (maxResults this)
         (JsArray.sort lower_score
            (filter (fun doc => geb (score doc) (minScore this))
                    scoredDocuments))).

Definition hasVectorIndex (collections : list CollectionInfo) : bool :=
  match collections with
  | c :: _ =>
      match options c with
      | Some o =>
          match indexes o with
          | Some idx =>
              JsArray.some (fun name => String.eqb name "vector_index") idx
          | None => false
          end
      | None => false
      end
  | [] => false
  end.

Definition performVectorSearch (this : SearchAgent)
    (processedQuery : ProcessedQuery) (input : Input) : M (list Scored) :=
  match vectorizer this with
  | None => throw _ (JsError "Vectorizer required for vector search")
  | Some _ =>
      collections <- with_db this "listCollections"
                       listCollections_toArray ;;
      if hasVectorIndex collections
      then performMongoDBVectorSearch this processedQuery input
      else performInMemoryVectorSearch this processedQuery input
  end.

(** *** Ranking and snippets *)

(** [/[.!?]+/]. *)
Definition is_terminator (c : ascii) : bool :=
  (code c =? 46)%nat || (code c =? 33)%nat || (code c =? 63)%nat.

(** The score a sentence gets in [extractRelevantSnippets], over the reals;
    the sum as it is computed, in doubles, is [Double.sentence_score]. *)
Definition sentence_score (normalized : string) (keywords : list string)
    (sentence : string) : R :=
  let score := 0 in
  (* Check for query match *)
  let score :=
    if includes (toLowerCase sentence) normalized then score + 5 / 10
    else score in
  (* Check for keyword matches *)
  fold_left
    (fun score keyword =>
       if includes (toLowerCase sentence) keyword then score + 1 / 10
       else score)
    keywords score.

(** The comparator [(a, b) => b.score - a.score] on snippets. *)
Definition lower_snippet (a b : Snippet) : bool :=
  Rltb 0 (snippet_score b - snippet_score a).

Definition extractRelevantSnippets (result : Document)
    (processedQuery : ProcessedQuery) : list Snippet :=
  let text := text_or_empty result in
  let keywords := keywords processedQuery in
  let normalized := normalized processedQuery in
  (* Split text into sentences *)
  let sentences :=
    filter (fun s => (0 <? String.length (trim s))%nat)
           (split is_terminator text) in
  (* Score each sentence based on query relevance *)
  let snippets :=
    flat_map
      (fun sentence =>
         let score := sentence_score normalized keywords sentence in
         if Rltb 0 score
         then [ {| snippet_text := trim sentence; snippet_score := score |} ]
         else [])
      sentences in
  (* Sort snippets by score and take top 3 *)
  JsArray.slice0 3 (JsArray.sort lower_snippet snippets).

Definition rankResults (this : SearchAgent) (results : list Scored)
    (processedQuery : ProcessedQuery) : list Result :=
  (* Filter out low-scoring results *)
  let filteredResults :=
    filter (fun result => geb (score result) (minScore this)) results in
  (* Sort by score *)
  let sortedResults := JsArray.sort lower_score filteredResults in
  (* Process each result to extract relevant snippets *)
  map (fun result =>
         let snippets :=
           extractRelevantSnippets (document result) processedQuery in
         {| id := _id (document result);
            agent := doc_agent (document result);
            result_score := score result;
            snippets := snippets;
            metadata := doc_metadata (document result);
            created_at := doc_created_at (document result) |})
      sortedResults.

(** *** _process and validateInput *)

Definition is_some (A : Type) (x : option A) : bool :=
  match x with Some _ => true | None => false end.

Definition _process (this : SearchAgent) (input : Input) : M Response :=
  (* Validate database connection *)
  match db this with
  | None => throw _ (JsError "Database connection required for search")
  | Some _ =>
      match query input with
      | JString q =>
          (* Parse and process the query *)
          processedQuery <- processQuery this q ;;
          (* Determine search strategy *)
          searchResults <-
            (if useVectorSearch this && is_some (vectorizer this)
             then performVectorSearch this processedQuery input
             else performTextSearch this processedQuery input) ;;
          (* Process and rank the results *)
          let rankedResults := rankResults this searchResults processedQuery in
          ret {| response_query := q;
                 processed_query := processedQuery;
                 results := rankedResults;
                 total_results := List.length rankedResults;
                 search_type :=
                   if useVectorSearch this then "vector" else "text" |}
      | v => throw _ (not_a_string v)   (* [query.toLowerCase()] *)
      end
  end.

(** [super.validateInput] belongs to [BaseAgent], which is not among the
    sources: it is a parameter. *)
Definition validateInput (super_validateInput : Input -> Error + unit)
    (input : Input) : Error + unit :=
  match super_validateInput input with
  | inl e => inl e
  | inr _ =>
      if negb (truthy_value (query input))
      then inl (JsError "Search query is required")
      else
        match query input with
        | JString _ => inr tt
        | _ => inl (JsError "Search query must be a string")
        end
  end.

(** Modelled from the spec: [BaseAgent.process] ([agents/base_agent.js]) is
    not among the sources. The spec has an empty or missing query "rejected
    before any I/O, surfaced to caller": the entry point validates the input
    and, when the validation throws, rethrows to the caller; otherwise it
    runs [_process]. *)
Definition process (super_validateInput : Input -> Error + unit)
    (this : SearchAgent) (input : Input) : M Response :=
  match validateInput super_validateInput input with
  | inl e => throw _ e
  | inr _ => _process this input
  end.

(** *** What the specification says, in its own words *)

(** "Strip punctuation": a character that is neither a letter, a digit nor
    white space is punctuation. *)
Definition is_punctuation (c : ascii) : bool :=
  negb (is_alnum c) && negb (is_space c).

(** The maximal runs of non-separator characters of [s], in order. *)
Fixpoint tokens (sep : ascii -> bool) (s : string) : list string :=
  match s with
  | EmptyString => []
  | String c s' =>
      if sep c then tokens sep s'
      else
        if starts_with_sep sep s' || negb (JsString.truthy s')
        then String c EmptyString :: tokens sep s'
        else
          match tokens sep s' with
          | t :: ts => String c t :: ts
          | [] => [String c EmptyString]
          end
  end.

(** "The lowercase alphanumeric tokens of length > 2 obtained from the
    normalized query after stripping punctuation and splitting on
    whitespace." *)
Definition spec_keywords (query : string) : list string :=
  filter (fun t => (2 <? String.length t)%nat)
    (tokens is_space
       (keep (fun c => negb (is_punctuation c)) (toLowerCase query))).

(** What a keyword is made of: lower-case letters, digits and [_]. *)
Definition keyword_char (c : ascii) : bool :=
  is_lower c || is_digit c || (code c =? 95)%nat.

(** The score formula of the specification, as a real number. *)
Definition indicator (b : bool) : R := if b then 1 else 0.

Definition fraction (matched all : nat) : R := INR matched / INR all.

(** "0.5 if the full normalized query is a substring of the document's
    extracted text; plus up to 0.3 scaled by the fraction of keywords present
    in the text; plus up to 0.2 scaled by the fraction of query entities
    whose text overlaps the document's analyzed entities (only applied when
    the query has entities). Total clamped to 1.0." The text is compared in
    lower case, as the normalized query is. *)
Definition doc_entities (result : Document) : list string :=
  match analysis (output result) with
  | Some a =>
      match analysis_entities a with
      | Some es => map toLowerCase es
      | None => []
      end
  | None => []
  end.

Definition spec_text_score (result : Document) (pq : ProcessedQuery) : R :=
  let text := toLowerCase (text_or_empty result) in
  Rmin 1
    (5 / 10 * indicator (includes text (normalized pq))
     + 3 / 10 * fraction
                  (List.length
                     (filter (fun k => includes text k) (keywords pq)))
                  (List.length (keywords pq))
     + 2 / 10 * match entities pq with
                | [] => 0
                | _ :: _ =>
                    fraction
                      (List.length
                         (filter (fun e =>
                                    JsArray.includes (toLowerCase (ent_text e))
                                                     (doc_entities result))
                                 (entities pq)))
                      (List.length (entities pq))
                end).

(** "Cosine similarity [dot(q,d) / (|q| |d|)]". *)
Fixpoint dot (v1 v2 : list R) : R :=
  match v1, v2 with
  | x :: v1', y :: v2' => x * y + dot v1' v2'
  | _, _ => 0
  end.

Definition norm (v : list R) : R := sqrt (dot v v).

(** *** Reading a computation *)

(** What a computation returns, and the calls it makes, when it starts on a
    store that holds [docs]. *)
Definition outcome (A : Type) (c : M A) (docs : list Document) : Error + A :=
  fst (c {| agent_results := docs; io_log := [] |}).

Definition calls (A : Type) (c : M A) (docs : list Document) : list Event :=
  io_log (snd (c {| agent_results := docs; io_log := [] |})).

(** A computation that leaves the stored documents as they are: all it does
    to the world is append its calls to the log, and none of them is a
    write. *)
Definition reads_only (A : Type) (c : M A) : Prop :=
  forall docs log,
    c {| agent_results := docs; io_log := log |}
    = (outcome c docs,
       {| agent_results := docs; io_log := log ++ calls c docs |})
    /\ Forall (fun ev => is_write ev = false) (calls c docs).

Definition lacks_embedding (doc : Document) : bool :=
  negb (is_some (vector_embedding doc)).

(** The callback of the backfill, as a function: a document that has an
    embedding is returned as it is, another one gets the encoder's. *)
Definition backfill (enc : Vectorizer) (doc : Document) : Error + Document :=
  match vector_embedding doc with
  | Some _ => inr doc
  | None =>
      match encode enc (text_or_empty doc) with
      | inl e => inl e
      | inr v => inr (set_vector_embedding doc v)
      end
  end.

(** The encoder fails on the text of a fetched document that has no
    embedding, with the error [e]. *)
Definition fails_on (enc : Vectorizer) (fetched : list Document) (e : Error)
    : Prop :=
  exists doc,
    In doc fetched /\ vector_embedding doc = None
    /\ encode enc (text_or_empty doc) = inl e.

(** The queries the three searches send. *)
Definition text_query (pq : ProcessedQuery) (input : Input) : Query :=
  {| q_or := Some (normalized pq, keywords pq);
     q_vectorSearch := None;
     q_agent := agent_filter input;
     q_created_at := date_filter input |}.

Definition all_documents_query (input : Input) : Query :=
  {| q_or := None;
     q_vectorSearch := None;
     q_agent := agent_filter input;
     q_created_at := date_filter input |}.

Definition index_query (this : SearchAgent) (pq : ProcessedQuery)
    (input : Input) : Query :=
  {| q_or := None;
     q_vectorSearch :=
       Some {| queryVector := vector pq;
               path := "vector_embedding";
               numCandidates := (maxResults this * 10)%nat;
               limit := maxResults this;
               index := "vector_index" |};
     q_agent := agent_filter input;
     q_created_at := date_filter input |}.

(** The documents the brute-force search fetches. *)
Definition candidates (d : Db) (input : Input) (docs : list Document)
    : list Document :=
  cursor_limit 1000 (filter (db_matches d (all_documents_query input)) docs).

(** The properties of a ranked result list. *)
Definition scores_sorted (rs : list Result) : Prop :=
  StronglySorted (fun a b => JsNum.ge (result_score a) (result_score b)) rs.

Definition scores_within (lo hi : R) (rs : list Result) : Prop :=
  Forall (fun r => within lo hi (result_score r)) rs.

Definition snippets_ranked (rs : list Result) : Prop :=
  Forall (fun r =>
            (List.length (snippets r) <= 3)%nat
            /\ StronglySorted
                 (fun a b => snippet_score b <= snippet_score a)
                 (snippets r))
         rs.

End Search.

(* ===================================================================== *)
(** ** The numeric functions in binary64 *)
(* ===================================================================== *)

(** A JavaScript number is an IEEE binary64 value, and so is a [float]: the
    operations below are the machine's, with its rounding, its infinities,
    its signed zeros and its [NaN]. [x =? y] is [x === y] on numbers: [NaN]
    differs from itself, and [0] equals [-0]. [Math.sqrt] is the correctly
    rounded square root, which is what the engines compute. *)
Module Double.

Import JsString PrimFloat.
Local Open Scope float_scope.

(** The loop of [calculateCosineSimilarity], run over two arrays of the same
    length: the dot product and the two squared magnitudes. *)
Fixpoint accumulate (vec1 vec2 : list float) (acc : float * float * float)
    : float * float * float :=
  match vec1, vec2 with
  | x :: vec1', y :: vec2' =>
      let '(dotProduct, mag1, mag2) := acc in
      accumulate vec1' vec2' (dotProduct + x * y, mag1 + x * x, mag2 + y * y)
  | _, _ => acc
  end.

(** [None] is a [null] or [undefined] argument. *)
Definition calculateCosineSimilarity (vec1 vec2 : option (list float))
    : float :=
  match vec1, vec2 with
  | Some v1, Some v2 =>
      if negb (List.length v1 =? List.length v2)%nat then 0
      else
        let '(dotProduct, mag1, mag2) := accumulate v1 v2 (0, 0, 0) in
        let mag1 := sqrt mag1 in
        let mag2 := sqrt mag2 in
        if (mag1 =? 0) || (mag2 =? 0) then 0
        else dotProduct / (mag1 * mag2)
  | _, _ => 0
  end.


(** The score a sentence gets in [extractRelevantSnippets]. *)
Definition sentence_score (normalized : string) (keywords : list string)
    (sentence : string) : float :=
  let score := 0 in
  (* Check for query match *)
  let score :=
    if includes (toLowerCase sentence) normalized then score + 0.5
    else score in
  (* Check for keyword matches *)
  fold_left
    (fun score keyword =>
       if includes (toLowerCase sentence) keyword then score + 0.1
       else score)
    keywords score.

End Double.

(* ===================================================================== *)
(** ** Sample stores, encoders and agents *)
(* ===================================================================== *)

Module Examples.

Import JsNum Search.
Local Open Scope string_scope.

Definition mkdoc (name : string) (text : string) (embedding : option (list R))
    : Document :=
  {| _id := name;
     doc_agent := "pdf";
     output := {| extracted_text := Some text; analysis := None |};
     vector_embedding := embedding;
     doc_metadata := "";
     doc_created_at := "2024-01-01" |}.

(** A reachable store without a vector index that matches every document. *)
Definition plain_db : Db :=
  {| db_failure := None;
     db_matches := fun _ _ => true;
     db_collections := [];
     db_vectorSearch := fun _ _ => [] |}.

Definition world_of (docs : list Document) : World :=
  {| agent_results := docs; io_log := [] |}.

Definition ask (q : string) : Input :=
  {| query := JString q; filters := None |}.

(** The agent a store alone configures. *)
Definition text_agent : SearchAgent :=
  constructor {| opt_db := Some plain_db;
                 opt_useVectorSearch := None;
                 opt_vectorizer := None;
                 opt_maxResults := None;
                 opt_minScore := None |}.

Definition doc_hi : Document := mkdoc "d1" "hi there" None.

(** An encoder that answers every text with the same embedding. *)
Definition constant_encoder (v : list R) : Vectorizer :=
  {| encode := fun _ => inr v;
     rejects_first := fun _ => O |}.

(** An encoder that fails on the text [bad]. *)
Definition picky_encoder : Vectorizer :=
  {| encode := fun text =>
                 if String.eqb text "bad" then inl (JsError "encoder down")
                 else inr [1%R];
     rejects_first := fun _ => O |}.

(** An encoder that fails on the texts [bad] and [worse], and whose second
    rejection is the first to arrive. *)
Definition hasty_encoder : Vectorizer :=
  {| encode := fun text =>
                 if String.eqb text "bad" then inl (JsError "encoder down")
                 else if String.eqb text "worse"
                      then inl (JsError "text rejected")
                      else inr [1%R];
     rejects_first := fun _ => 1%nat |}.


(** The agent the constructor builds from a store, the [useVectorSearch]
    flag and an encoder, with the default [maxResults] and [minScore]. *)
Definition agent_with (d : option Db) (vector : bool) (enc : option Vectorizer)
    : SearchAgent :=
  constructor {| opt_db := d;
                 opt_useVectorSearch := Some vector;
                 opt_vectorizer := enc;
                 opt_maxResults := None;
                 opt_minScore := None |}.

Definition doc_ml : Document :=
  mkdoc "a" "Machine learning enables automation. Unrelated" None.
Definition doc_bad : Document := mkdoc "b" "bad" None.
Definition doc_good : Document := mkdoc "g" "good" None.
Definition doc_worse : Document := mkdoc "w" "worse" None.
Definition doc_south : Document := mkdoc "s" "south" (Some [(-1)%R]).

Definition doc_north : Document := mkdoc "n" "north" (Some [1%R]).

(** Options that ask for the brute-force vector search and accept every
    cosine: a minimum score of -1. *)
Definition permissive_options : Options :=
  {| opt_db := Some plain_db;
     opt_useVectorSearch := Some true;
     opt_vectorizer := Some (constant_encoder [1%R]);
     opt_maxResults := None;
     opt_minScore := Some (Fin (-1)) |}.

(** Options with the falsy values [maxResults: 0] and [minScore: 0]. *)
Definition zero_options : Options :=
  {| opt_db := None;
     opt_useVectorSearch := None;
     opt_vectorizer := None;
     opt_maxResults := Some O;
     opt_minScore := Some (Fin 0) |}.

Definition custom_options : Options :=
  {| opt_db := None;
     opt_useVectorSearch := None;
     opt_vectorizer := None;
     opt_maxResults := Some 3;
     opt_minScore := Some (Fin (7 / 10)) |}.

Definition default_options : Options :=
  {| opt_db := Some plain_db;
     opt_useVectorSearch := None;
     opt_vectorizer := None;
     opt_maxResults := None;
     opt_minScore := None |}.

(** A [super.validateInput] that accepts every input. *)
Definition accept_all (input : Input) : Error + unit := inr tt.

(** A processed query that carries the embedding [v]. *)
Definition pq_with_vector (q : string) (v : list R) : ProcessedQuery :=
  {| original := q;
     normalized := q;
     keywords := [q];
     entities := [];
     intent := INFORMATION;
     vector := Some v |}.


(** What [processQuery] makes of the query [hi] without a vectorizer. *)
Definition pq_hi : ProcessedQuery :=
  {| original := "hi";
     normalized := "hi";
     keywords := [];
     entities := [];
     intent := INFORMATION;
     vector := None |}.

End Examples.

(* ===================================================================== *)
(** ** The agent manager: routing a request *)
(* ===================================================================== *)

(** [agents/agent_manager.js], [determineAgent]: the routing that sends an
    input with a query to the search agent. *)
Module Manager.

Import JsString Search.
Local Open Scope string_scope.

(** [input.file]: of an uploaded file the routing reads [name] and [type];
    [None] is an absent (or empty) property, which [|| ''] turns into the
    empty string. *)
Record FileInfo : Type := {
  file_name : option string;
  file_type : option string
}.

Record Request : Type := {
  request_file : option FileInfo;
  request_query : JsValue;
  request_source : JsValue
}.

Definition or_empty (x : option string) : string :=
  match x with
  | Some s => s
  | None => ""
  end.

(** [s.endsWith(suffix)]. *)
Definition endsWith (s suffix : string) : bool :=
  prefix (rev_string suffix "") (rev_string s "").

(** [s.startsWith(p)]. *)
Definition startsWith (s p : string) : bool := prefix p s.

Definition image_extensions : list string :=
  [".jpg"; ".jpeg"; ".png"; ".gif"; ".bmp"; ".tiff"].

Definition determineAgent (input : Request) : Error + string :=
  let by_content :=
    if truthy_value (request_query input) then inr "search"
    else if truthy_value (request_source input) then inr "live_data"
    else inl (JsError "Could not determine appropriate agent for input") in
  match request_file input with
  | Some file =>
      (* Determine by file type *)
      let filename := or_empty (file_name file) in
      let mimeType := or_empty (file_type file) in
      if endsWith (toLowerCase filename) ".pdf"
         || String.eqb mimeType "application/pdf"
      then inr "pdf"
      else if startsWith mimeType "image/"
              || JsArray.some (fun ext => endsWith (toLowerCase filename) ext)
                              image_extensions
      then inr "image"
      else by_content
  | None => by_content
  end.

End Manager.

(* ===================================================================== *)
(** ** Notions used to state further properties *)
(* ===================================================================== *)

Module Notions.

Import JsString JsNum Search.
Local Open Scope R_scope.

(** The scored document has the score [s]. *)
Definition scored_at (s : R) (a : Scored) : bool :=
  match score a with
  | Fin r => Reqb r s
  | NaN => false
  end.

(** The result has the score [s]. *)
Definition result_at (s : R) (r : Result) : bool :=
  match result_score r with
  | Fin x => Reqb x s
  | NaN => false
  end.


(** A sample query with a person, an organization and a date. *)
Definition entity_query : string :=
  "Did John Smith join Acme Corp on 2024-01-02"%string.

Definition pdf_request : Manager.Request :=
  {| Manager.request_file :=
       Some {| Manager.file_name := Some "Report.PDF"%string;
               Manager.file_type := None |};
     Manager.request_query := JString "quarterly report";
     Manager.request_source := JUndefined |}.

Definition query_request : Manager.Request :=
  {| Manager.request_file :=
       Some {| Manager.file_name := Some "notes.txt"%string;
               Manager.file_type := Some "text/plain"%string |};
     Manager.request_query := JString "quarterly report";
     Manager.request_source := JString "weather" |}.

(** A store that advertises a vector index whose scores are 0.9 for every
    stored document. *)
Definition indexed_db : Db :=
  {| db_failure := None;
     db_matches := fun _ _ => true;
     db_collections :=
       [ {| options := Some {| indexes := Some ["vector_index"%string] |} |} ];
     db_vectorSearch := fun _ docs => map (fun doc => (9 / 10, doc)) docs |}.

(** An encoder that is down. *)
Definition failing_encoder : Vectorizer :=
  {| encode := fun _ => inl (JsError "encoder down");
     rejects_first := fun _ => O |}.

End Notions.

(* ===================================================================== *)
(** ** Query keywords *)
(* ===================================================================== *)

Module KeywordFacts.

Import JsString Search.

(** A string that starts with a separator splits into an empty first piece. *)
Lemma split_leading_sep (sep : ascii -> bool) (s : string) :
  starts_with_sep sep s = true ->
  exists ps, split sep s = EmptyString :: ps.
Proof.
  induction s as [|c s IH]; simpl; intros H; try discriminate.
  rewrite H.
  destruct (starts_with_sep sep s) eqn:E.
  - exact (IH eq_refl).
  - eexists; reflexivity.
Qed.

(** The non-empty pieces of [split] are the tokens. *)
Lemma split_tokens (sep : ascii -> bool) (s : string) :
  filter JsString.truthy (split sep s) = tokens sep s.
Proof.
  induction s as [|c s IH]; simpl; [reflexivity|].
  destruct (sep c) eqn:Ec.
  - destruct (starts_with_sep sep s); simpl; exact IH.
  - destruct (starts_with_sep sep s) eqn:Es; simpl.
    + destruct (split_leading_sep sep s Es) as [ps Hps].
      rewrite Hps in *. simpl in *. now rewrite IH.
    + destruct s as [|c' s']; simpl in *; [reflexivity|].
      rewrite Es in *.
      destruct (split sep s') as [|p ps] eqn:Ep.
      * simpl in *. now rewrite <- IH.
      * simpl in *. now rewrite <- IH.
Qed.

Lemma filter_filter_implied (A : Type) (p q : A -> bool) (l : list A) :
  (forall x, p x = true -> q x = true) ->
  filter p (filter q l) = filter p l.
Proof.
  intros H. induction l as [|x l IH]; simpl; [reflexivity|].
  destruct (q x) eqn:Eq; simpl.
  - now rewrite IH.
  - destruct (p x) eqn:Ep; [|exact IH].
    apply H in Ep. congruence.
Qed.

Lemma all_chars_keep (p : ascii -> bool) (s : string) :
  all_chars p (keep p s) = true.
Proof.
  induction s as [|c s IH]; simpl; [reflexivity|].
  destruct (p c) eqn:E; simpl; [now rewrite E|exact IH].
Qed.

Lemma all_chars_keep_preserved (p q : ascii -> bool) (s : string) :
  all_chars q s = true -> all_chars q (keep p s) = true.
Proof.
  induction s as [|c s IH]; simpl; [reflexivity|].
  intros H. apply andb_true_iff in H as [Hc Hs].
  destruct (p c); simpl; [rewrite Hc|]; auto.
Qed.

Lemma all_chars_and (p q : ascii -> bool) (s : string) :
  all_chars p s = true -> all_chars q s = true ->
  all_chars (fun c => p c && q c) s = true.
Proof.
  induction s as [|c s IH]; simpl; [reflexivity|].
  intros Hp Hq.
  apply andb_true_iff in Hp as [-> Hp], Hq as [-> Hq]. simpl. auto.
Qed.

Lemma all_chars_impl (p q : ascii -> bool) (s : string) :
  (forall c, p c = true -> q c = true) ->
  all_chars p s = true -> all_chars q s = true.
Proof.
  intros H. induction s as [|c s IH]; simpl; [reflexivity|].
  intros Hs. apply andb_true_iff in Hs as [Hc Hs].
  rewrite (H c Hc). simpl. auto.
Qed.

(** Every piece of a split keeps the characters of the string and holds no
    separator. *)
Lemma split_pieces (sep p : ascii -> bool) (s : string) :
  all_chars p s = true ->
  Forall (fun piece => all_chars (fun c => p c && negb (sep c)) piece = true)
         (split sep s).
Proof.
  induction s as [|c s IH]; simpl; intros H.
  - constructor; [reflexivity|constructor].
  - apply andb_true_iff in H as [Hc Hs]. specialize (IH Hs).
    destruct (sep c) eqn:Ec.
    + destruct (starts_with_sep sep s); [assumption|].
      constructor; [reflexivity|assumption].
    + destruct (split sep s) as [|piece ps].
      * constructor; [simpl; now rewrite Hc, Ec|constructor].
      * inversion IH; subst. constructor; [|assumption].
        simpl. rewrite Hc, Ec. simpl. assumption.
Qed.

Lemma lower_char_not_upper (c : ascii) : is_upper (lower_char c) = false.
Proof.
  destruct c as [[] [] [] [] [] [] [] []]; vm_compute; reflexivity.
Qed.

Lemma all_chars_toLowerCase (s : string) :
  all_chars (fun c => negb (is_upper c)) (toLowerCase s) = true.
Proof.
  induction s as [|c s IH]; simpl; [reflexivity|].
  now rewrite lower_char_not_upper.
Qed.

Lemma kept_lowered_char (c : ascii) :
  (negb (is_upper c) && (is_word c || is_space c)) && negb (is_space c)
  = true ->
  keyword_char c = true.
Proof.
  destruct c as [[] [] [] [] [] [] [] []]; vm_compute; intros H;
    solve [reflexivity | discriminate H].
Qed.

Lemma Forall_filter_both (A : Type) (p : A -> bool) (P : A -> Prop)
    (l : list A) :
  Forall P l -> Forall (fun x => p x = true /\ P x) (filter p l).
Proof.
  induction 1 as [|x l Hx Hl IH]; simpl; [constructor|].
  destruct (p x) eqn:E; [constructor; auto|assumption].
Qed.

(** C8, as amended: the keywords of a query are, in order, the
    white-space separated tokens longer than two characters of the lower-cased
    query from which every character other than a word character
    ([A-Za-z0-9_]) or white space has been removed; each keyword is made of
    lower-case letters, digits and underscores only. *)
Theorem keywords_are_word_tokens (q : string) :
  query_keywords q
  = filter (fun t => 2 <? String.length t)
      (tokens is_space
         (keep (fun c => is_word c || is_space c) (toLowerCase q)))
  /\ Forall (fun k => (2 <? String.length k) = true
                      /\ all_chars keyword_char k = true)
            (query_keywords q).
Proof.
  unfold query_keywords. split.
  - rewrite <- split_tokens. symmetry. apply filter_filter_implied.
    intros [|c t]; simpl; [discriminate|reflexivity].
  - apply Forall_filter_both.
    set (s := keep _ _).
    assert (Hs : all_chars
                   (fun c => negb (is_upper c) && (is_word c || is_space c)) s
                 = true).
    { apply all_chars_and.
      - apply all_chars_keep_preserved, all_chars_toLowerCase.
      - apply all_chars_keep. }
    eapply Forall_impl; [|exact (split_pieces is_space _ s Hs)].
    intros piece Hp. simpl in Hp.
    eapply all_chars_impl; [|exact Hp].
    exact kept_lowered_char.
Qed.

(** C8, as stated, fails on an underscore: it is not alphanumeric, yet it is
    kept, so the keyword of [user_id] is [user_id] where the specification's
    tokens give [userid]. *)
Lemma keywords_keep_underscore :
  query_keywords "user_id" = ["user_id"%string]
  /\ spec_keywords "user_id" = ["userid"%string]
  /\ query_keywords "user_id" <> spec_keywords "user_id"
  /\ ~ Forall (fun k => all_chars is_alnum k = true) (query_keywords "user_id").
Proof.
  repeat split; try reflexivity.
  - vm_compute. discriminate.
  - intros H. vm_compute in H. inversion H as [|k l Hk Hl]; subst.
    discriminate Hk.
Qed.

End KeywordFacts.

(* ===================================================================== *)
(** ** Cosine similarity *)
(* ===================================================================== *)

Module CosineFacts.

Import JsNum Search.
Local Open Scope R_scope.

Lemma Reqb_true (x y : R) : Reqb x y = true <-> x = y.
Proof. unfold Reqb. destruct (Req_dec_T x y); split; congruence. Qed.

Lemma Reqb_false (x y : R) : Reqb x y = false <-> x <> y.
Proof. unfold Reqb. destruct (Req_dec_T x y); split; congruence. Qed.

Lemma Rleb_true (x y : R) : Rleb x y = true <-> x <= y.
Proof. unfold Rleb. destruct (Rle_dec x y); split; congruence. Qed.

Lemma Rleb_false (x y : R) : Rleb x y = false <-> y < x.
Proof.
  unfold Rleb. destruct (Rle_dec x y); split; try congruence; intros; lra.
Qed.

Lemma Rltb_true (x y : R) : Rltb x y = true <-> x < y.
Proof. unfold Rltb. destruct (Rlt_dec x y); split; congruence. Qed.

Lemma Rltb_false (x y : R) : Rltb x y = false <-> y <= x.
Proof.
  unfold Rltb. destruct (Rlt_dec x y); split; try congruence; intros; lra.
Qed.

(** The loop computes the dot product and the two squared magnitudes. *)
Lemma accumulate_dot (v1 v2 : list R) :
  List.length v1 = List.length v2 ->
  forall d m1 m2,
    accumulate v1 v2 (d, m1, m2)
    = (d + dot v1 v2, m1 + dot v1 v1, m2 + dot v2 v2).
Proof.
  revert v2. induction v1 as [|x v1 IH]; intros [|y v2] Hlen d m1 m2;
    simpl in *; try discriminate.
  - f_equal; [f_equal|]; lra.
  - rewrite IH by congruence. f_equal; [f_equal|]; lra.
Qed.

(** The similarity, once the guards have passed. *)
Lemma cosine_unfold (v1 v2 : list R) :
  List.length v1 = List.length v2 ->
  calculateCosineSimilarity (Some v1) (Some v2)
  = if Reqb (norm v1) 0 || Reqb (norm v2) 0 then 0
    else dot v1 v2 / (norm v1 * norm v2).
Proof.
  intros Hlen. unfold calculateCosineSimilarity, norm.
  rewrite Hlen, Nat.eqb_refl. simpl negb. cbv iota.
  rewrite (accumulate_dot v1 v2 Hlen). cbv beta iota zeta.
  now rewrite !Rplus_0_l.
Qed.

Lemma cosine_length_mismatch (v1 v2 : list R) :
  List.length v1 <> List.length v2 ->
  calculateCosineSimilarity (Some v1) (Some v2) = 0.
Proof.
  intros H. unfold calculateCosineSimilarity.
  apply Nat.eqb_neq in H. now rewrite H.
Qed.

(** Without a vector on either side, or with no component at all, the
    similarity is 0. *)
Lemma cosine_guards (o1 o2 : option (list R)) :
  calculateCosineSimilarity o1 o2 <> 0 ->
  exists v1 v2,
    o1 = Some v1 /\ o2 = Some v2
    /\ List.length v1 = List.length v2 /\ v1 <> [].
Proof.
  destruct o1 as [v1|], o2 as [v2|]; try (intros H; now contradiction H).
  intros H. exists v1, v2.
  destruct (Nat.eq_dec (List.length v1) (List.length v2)) as [E|N].
  - repeat split; [exact E|]. intros ->.
    destruct v2; [|discriminate E]. apply H.
    rewrite cosine_unfold by reflexivity. unfold norm. simpl.
    rewrite sqrt_0. now rewrite (proj2 (Reqb_true 0 0) eq_refl).
  - contradiction H. now apply cosine_length_mismatch.
Qed.

End CosineFacts.

(* ===================================================================== *)
(** ** The cosine similarity in binary64 *)
(* ===================================================================== *)

Module DoubleFacts.

Import PrimFloat SpecFloat FloatOps FloatAxioms Double.
Local Open Scope float_scope.












End DoubleFacts.

(* ===================================================================== *)
(** ** Computations that only read the store *)
(* ===================================================================== *)

Module MonadFacts.

Import JsNum Search.

Lemma bind_inr (A B : Type) (c : M A) (k : A -> M B) (w w' : World) (y : B) :
  bind c k w = (inr y, w') ->
  exists x w1, c w = (inr x, w1) /\ k x w1 = (inr y, w').
Proof.
  unfold bind. destruct (c w) as [[e|x] w1]; intros H; [discriminate|].
  eauto.
Qed.

Lemma reads_only_ret (A : Type) (x : A) : reads_only (ret x).
Proof.
  intros docs log. unfold outcome, calls, ret. simpl.
  split; [now rewrite app_nil_r|constructor].
Qed.

Lemma reads_only_throw (A : Type) (e : Error) : reads_only (throw A e).
Proof.
  intros docs log. unfold outcome, calls, throw. simpl.
  split; [now rewrite app_nil_r|constructor].
Qed.

Lemma reads_only_command (A : Type) (d : Db) (ev : Event)
    (answer : list Document -> A) :
  is_write ev = false -> reads_only (command d ev answer).
Proof.
  intros Hev docs log. unfold outcome, calls, command, record. simpl.
  split; [destruct (db_failure d); reflexivity|].
  destruct (db_failure d); repeat constructor; exact Hev.
Qed.

Lemma reads_only_find (d : Db) (q : Query) (n : nat) :
  reads_only (find_limit_toArray d q n).
Proof. now apply reads_only_command. Qed.

Lemma reads_only_listCollections (d : Db) :
  reads_only (listCollections_toArray d).
Proof. now apply reads_only_command. Qed.

Lemma reads_only_aggregate (d : Db) (q : Query) :
  reads_only (aggregate_toArray d q).
Proof. now apply reads_only_command. Qed.

Lemma reads_only_encode_call (v : Vectorizer) (text : string) :
  reads_only (encode_call v text).
Proof. intros docs log. split; [reflexivity|repeat constructor]. Qed.

Lemma reads_only_bind (A B : Type) (c : M A) (k : A -> M B) :
  reads_only c -> (forall x, reads_only (k x)) -> reads_only (bind c k).
Proof.
  intros Hc Hk docs log.
  destruct (Hc docs log) as [Rc _], (Hc docs []) as [Rc0 Wc].
  unfold outcome, calls, bind. rewrite Rc, Rc0.
  destruct (outcome c docs) as [e|x]; cbn [fst snd io_log app].
  - split; [reflexivity|exact Wc].
  - destruct (Hk x docs (log ++ calls c docs)) as [Rk _].
    destruct (Hk x docs (calls c docs)) as [Rk0 _].
    destruct (Hk x docs []) as [_ Wk].
    rewrite Rk, Rk0. cbn [fst snd io_log].
    split; [now rewrite app_assoc|].
    apply Forall_app. split; assumption.
Qed.

(** Callbacks that only read, started together. *)
Lemma reads_only_settle_all (A : Type) (ps : list (M A)) :
  Forall (@reads_only A) ps ->
  forall docs,
  exists rs made,
    Forall (fun ev => is_write ev = false) made
    /\ forall log,
         settle_all ps {| agent_results := docs; io_log := log |}
         = (rs, {| agent_results := docs; io_log := log ++ made |}).
Proof.
  induction 1 as [|p ps Hp Hps IH]; intros docs.
  - exists [], []. split; [constructor|]. intros log. simpl.
    now rewrite app_nil_r.
  - destruct (IH docs) as [rs [made [Wm Hm]]].
    destruct (Hp docs []) as [_ Wp].
    exists (outcome p docs :: rs), (calls p docs ++ made).
    split; [apply Forall_app; split; assumption|].
    intros log. cbn [settle_all].
    destruct (Hp docs log) as [Rp _]. rewrite Rp, Hm.
    now rewrite app_assoc.
Qed.

Lemma reads_only_promise_all (A : Type) (first : list Error -> nat)
    (ps : list (M A)) :
  Forall (@reads_only A) ps -> reads_only (promise_all first ps).
Proof.
  intros H docs log.
  destruct (reads_only_settle_all H docs) as [rs [made [Wm Hm]]].
  unfold outcome, calls, promise_all. rewrite (Hm log), (Hm []).
  cbn [fst snd io_log app]. split; [reflexivity|exact Wm].
Qed.

(** The agent's computations only read the store. *)
Lemma reads_only_with_db (A : Type) (this : SearchAgent) (property : string)
    (k : Db -> M A) :
  (forall d, reads_only (k d)) -> reads_only (with_db this property k).
Proof.
  intros H. unfold with_db. destruct (db this); [apply H|].
  apply reads_only_throw.
Qed.

Lemma reads_only_with_vectorizer (A : Type) (this : SearchAgent)
    (k : Vectorizer -> M A) :
  (forall v, reads_only (k v)) -> reads_only (with_vectorizer this k).
Proof.
  intros H. unfold with_vectorizer. destruct (vectorizer this); [apply H|].
  apply reads_only_throw.
Qed.

Create HintDb reads.
#[local] Hint Resolve reads_only_ret reads_only_throw reads_only_find
  reads_only_listCollections reads_only_aggregate
  reads_only_encode_call : reads.

Ltac reads :=
  repeat first
    [ solve [auto with reads]
    | apply reads_only_with_db; intros ?
    | apply reads_only_with_vectorizer; intros ?
    | apply reads_only_bind; [|intros ?] ].

Lemma reads_only_processQuery (this : SearchAgent) (q : string) :
  reads_only (processQuery this q).
Proof.
  unfold processQuery. destruct (vectorizer this); reads.
Qed.

#[local] Hint Resolve reads_only_processQuery : reads.

Lemma reads_only_performTextSearch (this : SearchAgent) (pq : ProcessedQuery)
    (input : Input) :
  reads_only (performTextSearch this pq input).
Proof. unfold performTextSearch. reads. Qed.

Lemma reads_only_performMongoDBVectorSearch (this : SearchAgent)
    (pq : ProcessedQuery) (input : Input) :
  reads_only (performMongoDBVectorSearch this pq input).
Proof. unfold performMongoDBVectorSearch. reads. Qed.

Lemma reads_only_performInMemoryVectorSearch (this : SearchAgent)
    (pq : ProcessedQuery) (input : Input) :
  reads_only (performInMemoryVectorSearch this pq input).
Proof.
  unfold performInMemoryVectorSearch. reads.
  apply reads_only_promise_all, Forall_map, Forall_forall.
  intros doc _. destruct (vector_embedding doc); reads.
Qed.

#[local] Hint Resolve reads_only_performTextSearch
  reads_only_performMongoDBVectorSearch
  reads_only_performInMemoryVectorSearch : reads.

Lemma reads_only_performVectorSearch (this : SearchAgent)
    (pq : ProcessedQuery) (input : Input) :
  reads_only (performVectorSearch this pq input).
Proof.
  unfold performVectorSearch.
  destruct (vectorizer this); reads.
  destruct (hasVectorIndex _); reads.
Qed.

#[local] Hint Resolve reads_only_performVectorSearch : reads.

Lemma reads_only_process (this : SearchAgent) (input : Input) :
  reads_only (_process this input).
Proof.
  unfold _process. destruct (db this); reads.
  destruct (query input); reads.
  destruct (useVectorSearch this && is_some (vectorizer this)); reads.
Qed.

(** What a computation that only reads does to any world. *)
Lemma reads_only_run (A : Type) (c : M A) (w : World) :
  reads_only c ->
  c w = (outcome c (agent_results w),
         {| agent_results := agent_results w;
            io_log := io_log w ++ calls c (agent_results w) |}).
Proof. intros H. destruct w as [docs log]. apply (H docs log). Qed.

(** The write of the ingestion is not such a computation: it adds a document
    to the store. *)
Lemma insertOne_writes (d : Db) (doc : Document) (w : World) :
  db_failure d = None ->
  agent_results (snd (insertOne d doc w)) = agent_results w ++ [doc]
  /\ ~ reads_only (insertOne d doc).
Proof.
  intros Hok. split; [unfold insertOne; now rewrite Hok|].
  intros H. destruct (H [] []) as [_ W].
  assert (E : calls (insertOne d doc) [] = [InsertOne doc])
    by (unfold calls, insertOne; now rewrite Hok).
  rewrite E in W. inversion W as [|ev l Hev _]; subst. discriminate Hev.
Qed.

End MonadFacts.

(* ===================================================================== *)
(** ** The constructor *)
(* ===================================================================== *)

Module ConstructorFacts.

Import JsNum Search CosineFacts.
Local Open Scope R_scope.

Lemma or_number_truthy (v : num) (d : R) :
  JsNum.truthy v = true -> Fin (or_number (Some v) d) = v.
Proof.
  destruct v as [r|]; simpl; [|discriminate].
  intros H. now rewrite H.
Qed.

Lemma or_number_falsy (v : num) (d : R) :
  JsNum.truthy v = false -> or_number (Some v) d = d.
Proof.
  destruct v as [r|]; simpl; [|reflexivity].
  intros H. now rewrite H.
Qed.

Lemma or_number_nonzero (x : option num) (d : R) :
  d <> 0 -> or_number x d <> 0.
Proof.
  intros Hd. destruct x as [[r|]|]; simpl; try assumption.
  destruct (Reqb r 0) eqn:E; simpl; [assumption|].
  now apply Reqb_false in E.
Qed.

(** C10: a falsy [minScore] (0 or NaN) or [maxResults] (0) is replaced by the
    default, 0.5 and 10, so neither field of the agent is ever 0; a truthy
    value is taken as it is. *)
Theorem constructor_falsy_defaults (opts : Options) :
  (forall v, opt_minScore opts = Some v -> JsNum.truthy v = false ->
             minScore (constructor opts) = 5 / 10)
  /\ (opt_maxResults opts = Some O -> maxResults (constructor opts) = 10%nat)
  /\ minScore (constructor opts) <> 0
  /\ maxResults (constructor opts) <> O
  /\ (forall v, opt_minScore opts = Some v -> JsNum.truthy v = true ->
                Fin (minScore (constructor opts)) = v)
  /\ (forall n, opt_maxResults opts = Some n -> n <> O ->
                maxResults (constructor opts) = n).
Proof.
  unfold constructor; simpl. repeat split.
  - intros v -> Hv. now apply or_number_falsy.
  - now intros ->.
  - apply or_number_nonzero. lra.
  - destruct (opt_maxResults opts) as [[|n]|]; simpl; discriminate.
  - intros v -> Hv. now apply or_number_truthy.
  - intros n -> Hn. destruct n; [contradiction|reflexivity].
Qed.

Lemma constructor_falsy_defaults_witness :
  (minScore (constructor Examples.zero_options) = 5 / 10
   /\ maxResults (constructor Examples.zero_options) = 10%nat)
  /\ (Fin (minScore (constructor Examples.permissive_options)) = Fin (-1)
      /\ maxResults (constructor Examples.custom_options) = 3%nat).
Proof.
  split.
  - destruct (constructor_falsy_defaults Examples.zero_options)
      as [Hmin [Hmax _]].
    split.
    + apply (Hmin (Fin 0)); [reflexivity|].
      simpl. now rewrite (proj2 (Reqb_true 0 0) eq_refl).
    + apply Hmax. reflexivity.
  - split.
    + destruct (constructor_falsy_defaults Examples.permissive_options)
        as [_ [_ [_ [_ [Hmin _]]]]].
      apply Hmin; [reflexivity|].
      simpl. apply negb_true_iff, Reqb_false. lra.
    + destruct (constructor_falsy_defaults Examples.custom_options)
        as [_ [_ [_ [_ [_ Hmax]]]]].
      apply Hmax; [reflexivity|discriminate].
Defined.

End ConstructorFacts.

(* ===================================================================== *)
(** ** The text score *)
(* ===================================================================== *)

Module TextScoreFacts.

Import JsString JsNum Search CosineFacts.
Local Open Scope R_scope.

Lemma div_length_nonneg (matched all : nat) (c : R) :
  0 <= c -> nonneg (mul (div_length matched all) (Fin c)).
Proof.
  intros Hc. destruct all as [|n]; simpl; [exact I|].
  apply Rmult_le_pos; [|exact Hc].
  pose proof (pos_INR matched).
  assert (0 < INR (S n)) by (apply lt_0_INR; lia).
  apply Rmult_le_pos; [assumption|].
  left. now apply Rinv_0_lt_compat.
Qed.

Lemma add_nonneg (a b : num) : nonneg a -> nonneg b -> nonneg (add a b).
Proof.
  destruct a, b; simpl; auto. intros. lra.
Qed.

Lemma min1_within (x : num) : nonneg x -> x = NaN \/ within 0 1 (min1 x).
Proof.
  destruct x as [r|]; simpl; [|now left].
  intros H. right. unfold Rmin. destruct (Rle_dec 1 r); lra.
Qed.

Lemma min1_NaN (x : num) : min1 x = NaN <-> x = NaN.
Proof. destruct x; simpl; split; congruence. Qed.

(** The text score is [NaN] or lies in [[0, 1]]. *)
Lemma text_score_range (result : Document) (pq : ProcessedQuery) :
  calculateTextScore result pq = NaN
  \/ within 0 1 (calculateTextScore result pq).
Proof.
  unfold calculateTextScore.
  match goal with |- min1 ?s = NaN \/ _ => assert (H : nonneg s) end.
  { repeat match goal with
           | |- nonneg (if ?b then _ else _) => destruct b
           | |- nonneg (match ?o with Some _ => _ | None => _ end) => destruct o
           | |- nonneg (add _ _) => apply add_nonneg
           | |- nonneg (mul (div_length _ _) (Fin _)) =>
               apply div_length_nonneg; lra
           | |- nonneg (Fin _) => simpl; lra
           end. }
  destruct (min1_within _ H) as [E|W]; [left; now apply min1_NaN|now right].
Qed.

Lemma filter_none (A : Type) (p : A -> bool) (l : list A) :
  Forall (fun x => p x = false) l -> filter p l = [].
Proof.
  induction 1 as [|x l Hx Hl IH]; simpl; [reflexivity|]. now rewrite Hx.
Qed.

Lemma includes_empty_haystack (needle : string) :
  needle <> EmptyString -> includes EmptyString needle = false.
Proof. destruct needle; simpl; [congruence|reflexivity]. Qed.

Lemma fraction_zero (n : nat) : fraction 0 n = 0.
Proof. unfold fraction. simpl. unfold Rdiv. apply Rmult_0_l. Qed.

(** Outside the case of a query without keywords, the score is the formula
    of the specification. *)
Lemma text_score_formula (result : Document) (pq : ProcessedQuery) :
  keywords pq <> [] ->
  normalized pq <> EmptyString ->
  Forall (fun k => k <> EmptyString) (keywords pq) ->
  calculateTextScore result pq = Fin (spec_text_score result pq).
Proof.
  intros Hk Hn Hks.
  unfold calculateTextScore, spec_text_score, doc_entities, has_text.
  cbv zeta.
  assert (Dk : forall m, div_length m (List.length (keywords pq))
                         = Fin (fraction m (List.length (keywords pq)))).
  { intros m. destruct (keywords pq); [contradiction|reflexivity]. }
  rewrite Dk.
  assert (E0 : JsString.truthy (text_or_empty result) = false ->
               text_or_empty result = EmptyString).
  { destruct (text_or_empty result); [reflexivity|discriminate]. }
  assert (Hnone : filter (fun k => includes EmptyString k) (keywords pq) = []).
  { apply filter_none. eapply Forall_impl; [|exact Hks].
    intros a Ha. now apply includes_empty_haystack. }
  destruct (entities pq) as [|e es'] eqn:Ee.
  - (* no query entity: the third term is left out *)
    cbn [List.length Nat.ltb Nat.leb filter].
    destruct (JsString.truthy (text_or_empty result)) eqn:Et.
    + destruct (includes (toLowerCase (text_or_empty result)) (normalized pq));
        (destruct (analysis (output result)) as [a|];
         [destruct (analysis_entities a) as [es|]|]);
        cbn [andb add mul min1 indicator]; do 2 apply f_equal; lra.
    + rewrite (E0 eq_refl). cbn [toLowerCase].
      rewrite (includes_empty_haystack Hn), Hnone, fraction_zero.
      (destruct (analysis (output result)) as [a|];
       [destruct (analysis_entities a) as [es|]|]);
        cbn [andb add mul min1 indicator]; do 2 apply f_equal; lra.
  - (* some query entity *)
    set (ents := e :: es') in *.
    assert (De : forall m, div_length m (List.length ents)
                           = Fin (fraction m (List.length ents)))
      by reflexivity.
    assert (Hpos : (0 <? List.length ents)%nat = true) by reflexivity.
    rewrite Hpos.
    assert (Hno : filter (fun e0 : Entity =>
                            JsArray.includes (toLowerCase (ent_text e0)) [])
                         ents = [])
      by (apply filter_none, Forall_forall; reflexivity).
    destruct (JsString.truthy (text_or_empty result)) eqn:Et.
    + destruct (includes (toLowerCase (text_or_empty result)) (normalized pq));
        (destruct (analysis (output result)) as [a|];
         [destruct (analysis_entities a) as [es|]|]);
        rewrite ?De, ?Hno, ?fraction_zero;
        cbn [andb add mul min1 indicator]; do 2 apply f_equal; lra.
    + rewrite (E0 eq_refl). cbn [toLowerCase].
      rewrite (includes_empty_haystack Hn), Hnone, fraction_zero.
      (destruct (analysis (output result)) as [a|];
       [destruct (analysis_entities a) as [es|]|]);
        rewrite ?De, ?Hno, ?fraction_zero;
        cbn [andb add mul min1 indicator]; do 2 apply f_equal; lra.
Qed.

(** C6 (code bug): for the query [hi], which has no keyword, and a document
    whose text is [hi there], the keyword term is [0 / 0]: the score is [NaN],
    not the 0.5 or more of the formula, and ranking drops the document. *)
Theorem text_score_without_keywords :
  fst (processQuery Examples.text_agent "hi"
         (Examples.world_of [Examples.doc_hi]))
  = inr Examples.pq_hi
  /\ calculateTextScore Examples.doc_hi Examples.pq_hi = NaN
  /\ (forall x : R, calculateTextScore Examples.doc_hi Examples.pq_hi <> Fin x)
  /\ (exists resp,
        fst (_process Examples.text_agent (Examples.ask "hi")
                      (Examples.world_of [Examples.doc_hi])) = inr resp
        /\ processed_query resp = Examples.pq_hi
        /\ results resp = []).
Proof.
  assert (E : calculateTextScore Examples.doc_hi Examples.pq_hi = NaN)
    by reflexivity.
  split; [reflexivity|]. split; [exact E|]. split.
  - intros x. rewrite E. discriminate.
  - eexists. split; [reflexivity|]. split; reflexivity.
Qed.

End TextScoreFacts.

(* ===================================================================== *)
(** ** Sorting *)
(* ===================================================================== *)

Module SortFacts.

Import JsArray.

Section StableSort.
Variable A : Type.
Variable after : A -> A -> bool.

Lemma insert_perm (x : A) (l : list A) :
  Permutation (insert after x l) (x :: l).
Proof.
  induction l as [|y l IH]; simpl; [reflexivity|].
  destruct (after x y); [|reflexivity].
  rewrite IH. apply perm_swap.
Qed.

Lemma sort_perm (l : list A) : Permutation (sort after l) l.
Proof.
  induction l as [|x l IH]; simpl; [reflexivity|].
  rewrite insert_perm. now constructor.
Qed.

Lemma sort_length (l : list A) : List.length (sort after l) = List.length l.
Proof. apply Permutation_length, sort_perm. Qed.

Lemma sort_Forall (P : A -> Prop) (l : list A) :
  Forall P l -> Forall P (sort after l).
Proof.
  intros H. eapply Permutation_Forall; [|exact H].
  symmetry. apply sort_perm.
Qed.

(** On the elements that satisfy [P] the comparator decides a transitive
    order [before]. *)
Variable P : A -> Prop.
Variable before : A -> A -> Prop.
Hypothesis before_trans :
  forall x y z, before x y -> before y z -> before x z.
Hypothesis after_false :
  forall x y, P x -> P y -> after x y = false -> before x y.
Hypothesis after_true :
  forall x y, P x -> P y -> after x y = true -> before y x.

Lemma insert_sorted (x : A) (l : list A) :
  P x -> Forall P l ->
  StronglySorted before l -> StronglySorted before (insert after x l).
Proof.
  intros Hx Hl Hs. induction Hs as [|y l Hs IH Hy]; simpl.
  - constructor; constructor.
  - inversion Hl as [|? ? Py Pl]; subst.
    destruct (after x y) eqn:E.
    + constructor; [now apply IH|].
      eapply Permutation_Forall; [symmetry; apply insert_perm|].
      constructor; [now apply after_true|assumption].
    + assert (Hxy : before x y) by now apply after_false.
      constructor; [now constructor|].
      constructor; [assumption|].
      eapply Forall_impl; [|exact Hy].
      intros z Hz. now apply before_trans with y.
Qed.

Lemma sort_sorted (l : list A) :
  Forall P l -> StronglySorted before (sort after l).
Proof.
  induction 1 as [|x l Hx Hl IH]; simpl; [constructor|].
  apply insert_sorted; [assumption| |assumption].
  now apply sort_Forall.
Qed.
End StableSort.

Lemma firstn_In (A : Type) (n : nat) (l : list A) (x : A) :
  In x (firstn n l) -> In x l.
Proof.
  revert l. induction n as [|n IH]; intros [|y l]; simpl; try tauto.
  intros [H|H]; [now left|right; now apply IH].
Qed.

Lemma firstn_sorted (A : Type) (before : A -> A -> Prop) (n : nat)
    (l : list A) :
  StronglySorted before l -> StronglySorted before (firstn n l).
Proof.
  revert l. induction n as [|n IH]; intros l Hs; simpl; [constructor|].
  destruct Hs as [|x l Hs Hx]; [constructor|].
  constructor; [now apply IH|].
  apply Forall_forall. intros y Hy.
  apply (proj1 (Forall_forall _ _) Hx). eapply firstn_In; eauto.
Qed.

Lemma firstn_Forall (A : Type) (P : A -> Prop) (n : nat) (l : list A) :
  Forall P l -> Forall P (firstn n l).
Proof.
  intros H. apply Forall_forall. intros x Hx.
  apply (proj1 (Forall_forall _ _) H). eapply firstn_In; eauto.
Qed.

Lemma map_sorted (A B : Type) (f : A -> B) (before : B -> B -> Prop)
    (l : list A) :
  StronglySorted (fun x y => before (f x) (f y)) l ->
  StronglySorted before (map f l).
Proof.
  induction 1 as [|x l Hs IH Hx]; simpl; constructor; [assumption|].
  apply Forall_map. exact Hx.
Qed.

Lemma filter_Forall_true (A : Type) (p : A -> bool) (l : list A) :
  Forall (fun x => p x = true) (filter p l).
Proof.
  apply Forall_forall. intros x Hx. now apply filter_In in Hx.
Qed.

End SortFacts.

(* ===================================================================== *)
(** ** Ranking and snippets *)
(* ===================================================================== *)

Module RankFacts.

Import JsString JsNum JsArray Search CosineFacts SortFacts.
Local Open Scope R_scope.

Lemma geb_true (x : num) (m : R) :
  geb x m = true <-> exists r, x = Fin r /\ m <= r.
Proof.
  destruct x as [r|]; simpl.
  - rewrite Rleb_true. split.
    + intros H. exists r. auto.
    + intros [r' [E H]]. now inversion E; subst.
  - split; [discriminate|]. intros [r [E _]]. discriminate.
Qed.

Lemma ge_trans (x y z : num) : JsNum.ge x y -> JsNum.ge y z -> JsNum.ge x z.
Proof. destruct x, y, z; simpl; try tauto. intros. lra. Qed.

Lemma lower_score_false (a b : Scored) :
  (exists r, score a = Fin r) -> (exists r, score b = Fin r) ->
  lower_score a b = false -> JsNum.ge (score a) (score b).
Proof.
  unfold lower_score. intros [x ->] [y ->]. simpl.
  rewrite Rltb_false. lra.
Qed.

Lemma lower_score_true (a b : Scored) :
  (exists r, score a = Fin r) -> (exists r, score b = Fin r) ->
  lower_score a b = true -> JsNum.ge (score b) (score a).
Proof.
  unfold lower_score. intros [x ->] [y ->]. simpl.
  rewrite Rltb_true. lra.
Qed.

(** Sorting scored documents none of which has a [NaN] score. *)
Lemma sort_by_score (l : list Scored) :
  Forall (fun a => exists r, score a = Fin r) l ->
  StronglySorted (fun a b => JsNum.ge (score a) (score b))
                 (sort lower_score l).
Proof.
  apply sort_sorted.
  - intros x y z. apply ge_trans.
  - exact lower_score_false.
  - exact lower_score_true.
Qed.

Lemma sort_snippets (l : list Snippet) :
  StronglySorted (fun a b => snippet_score b <= snippet_score a)
                 (sort lower_snippet l).
Proof.
  apply sort_sorted with (P := fun _ => True).
  - intros x y z. lra.
  - intros x y _ _. unfold lower_snippet. rewrite Rltb_false. lra.
  - intros x y _ _. unfold lower_snippet. rewrite Rltb_true. lra.
  - apply Forall_forall. trivial.
Qed.

(** At most three snippets, the best first. *)
Lemma snippets_top3 (result : Document) (pq : ProcessedQuery) :
  (List.length (extractRelevantSnippets result pq) <= 3)%nat
  /\ StronglySorted (fun a b => snippet_score b <= snippet_score a)
                    (extractRelevantSnippets result pq).
Proof.
  unfold extractRelevantSnippets, slice0. split.
  - apply firstn_le_length.
  - apply firstn_sorted, sort_snippets.
Qed.

Section Ranked.
Variable this : SearchAgent.
Variable pq : ProcessedQuery.
Variable found : list Scored.

Lemma kept_above_minScore :
  Forall (fun r => geb (score r) (minScore this) = true)
         (sort lower_score
            (filter (fun r => geb (score r) (minScore this)) found)).
Proof. apply sort_Forall, filter_Forall_true. Qed.

Lemma rank_sorted : scores_sorted (rankResults this found pq).
Proof.
  unfold scores_sorted, rankResults. apply map_sorted. simpl.
  apply sort_by_score.
  eapply Forall_impl; [|apply filter_Forall_true].
  intros a Ha. apply geb_true in Ha as [r [E _]]. eauto.
Qed.

Lemma rank_above_minScore :
  Forall (fun r => JsNum.ge (result_score r) (Fin (minScore this)))
         (rankResults this found pq).
Proof.
  unfold rankResults. apply Forall_map. simpl.
  eapply Forall_impl; [|exact kept_above_minScore].
  intros a Ha. apply geb_true in Ha as [r [-> H]]. exact H.
Qed.

Lemma rank_snippets : snippets_ranked (rankResults this found pq).
Proof.
  unfold snippets_ranked, rankResults. apply Forall_map. simpl.
  apply Forall_forall. intros a _. apply snippets_top3.
Qed.

(** A property of the scores that are not [NaN] carries over to the
    results. *)
Lemma rank_scores (Q : num -> Prop) :
  Forall (fun a => score a = NaN \/ Q (score a)) found ->
  Forall (fun r => Q (result_score r)) (rankResults this found pq).
Proof.
  intros H. unfold rankResults. apply Forall_map. simpl.
  apply sort_Forall.
  apply Forall_forall. intros a Ha. apply filter_In in Ha as [Hin Hge].
  apply geb_true in Hge as [r [E _]].
  destruct (proj1 (Forall_forall _ _) H a Hin) as [N|Hq]; [congruence|].
  exact Hq.
Qed.
End Ranked.

End RankFacts.

(* ===================================================================== *)
(** ** The searches, run *)
(* ===================================================================== *)

Module RunFacts.

Import JsString JsNum JsArray Search CosineFacts SortFacts MonadFacts.
Local Open Scope R_scope.

(** Callbacks that each append their calls to the log, started together. *)
Lemma settle_all_map_run (f : Document -> M Document)
    (g : Document -> Error + Document) (ev : Document -> list Event) :
  (forall doc docs log,
      f doc {| agent_results := docs; io_log := log |}
      = (g doc, {| agent_results := docs; io_log := log ++ ev doc |})) ->
  forall l docs log,
    settle_all (map f l) {| agent_results := docs; io_log := log |}
    = (map g l,
       {| agent_results := docs; io_log := log ++ flat_map ev l |}).
Proof.
  intros Hf. induction l as [|doc l IH]; intros docs log; simpl.
  - now rewrite app_nil_r.
  - rewrite Hf, IH. now rewrite app_assoc.
Qed.

Lemma encode_events (l : list Document) :
  flat_map (fun doc => if lacks_embedding doc
                       then [Encode (text_or_empty doc)] else []) l
  = map (fun doc => Encode (text_or_empty doc)) (filter lacks_embedding l).
Proof.
  induction l as [|doc l IH]; simpl; [reflexivity|].
  destruct (lacks_embedding doc); simpl; now rewrite IH.
Qed.

(** [Promise.all] rejects exactly when a callback does, with one of the
    rejections; it fulfils exactly when every callback does. *)
Lemma rejections_In (A : Type) (rs : list (Error + A)) (e : Error) :
  In e (rejections rs) <-> In (inl e) rs.
Proof.
  induction rs as [|[e'|x] rs IH]; simpl; [tauto| |].
  - rewrite IH. split; (intros [H|H]; [left; congruence|now right]).
  - rewrite IH. split; [now right|]. intros [H|H]; [discriminate|exact H].
Qed.

Lemma all_or_rejection_inl (A : Type) (first : list Error -> nat)
    (rs : list (Error + A)) (e : Error) :
  all_or_rejection first rs = inl e -> In (inl e) rs.
Proof.
  unfold all_or_rejection. intros H. apply rejections_In.
  destruct (rejections rs) as [|e0 es]; [discriminate|].
  assert (He0 : In e0 (e0 :: es)) by now left.
  revert H He0. generalize (first (e0 :: es)) as n.
  generalize (e0 :: es) as l. intros l n H He0. injection H as <-.
  destruct (Nat.lt_ge_cases n (List.length l)) as [Hlt|Hge].
  - apply nth_In. exact Hlt.
  - rewrite nth_overflow by exact Hge. exact He0.
Qed.

Lemma all_or_rejection_fails (A : Type) (first : list Error -> nat)
    (rs : list (Error + A)) :
  (exists e, In (inl e) rs) -> exists e, all_or_rejection first rs = inl e.
Proof.
  intros [e He]. apply rejections_In in He. unfold all_or_rejection.
  destruct (rejections rs); [contradiction|eauto].
Qed.

Lemma all_or_rejection_inr (A : Type) (first : list Error -> nat)
    (rs : list (Error + A)) (xs : list A) :
  all_or_rejection first rs = inr xs <-> rs = map inr xs.
Proof.
  unfold all_or_rejection. split.
  - intros H. destruct (rejections rs) as [|e0 es] eqn:E; [|discriminate].
    injection H as <-.
    induction rs as [|[e|x] rs IH]; simpl in *; [reflexivity|discriminate|].
    now rewrite <- IH.
  - intros ->.
    assert (E : rejections (map (@inr Error A) xs) = []
                /\ fulfilled (map (@inr Error A) xs) = xs).
    { induction xs as [|x xs [IH1 IH2]]; simpl; [auto|].
      now rewrite IH1, IH2. }
    destruct E as [-> ->]. reflexivity.
Qed.

Section Runs.
Variable this : SearchAgent.
Variable d : Db.
Variable pq : ProcessedQuery.
Variable input : Input.
Hypothesis this_db : db this = Some d.

(** The text search sends one [find], limited to [maxResults]. *)
Lemma performTextSearch_run (docs : list Document) (log : list Event) :
  performTextSearch this pq input {| agent_results := docs; io_log := log |}
  = (match db_failure d with
     | Some e => inl e
     | None =>
         inr (map (fun result =>
                     {| document := result;
                        score := calculateTextScore result pq |})
                  (cursor_limit (maxResults this)
                     (filter (db_matches d (text_query pq input)) docs)))
     end,
     {| agent_results := docs;
        io_log := log ++ [Find (text_query pq input) (maxResults this)] |}).
Proof.
  unfold performTextSearch, with_db, find_limit_toArray, command, bind.
  rewrite this_db. simpl.
  destruct (db_failure d); reflexivity.
Qed.

(** The delegated search sends one [aggregate] and takes the scores of the
    index as they come. *)
Lemma performMongoDBVectorSearch_run (docs : list Document)
    (log : list Event) :
  performMongoDBVectorSearch this pq input
    {| agent_results := docs; io_log := log |}
  = (match db_failure d with
     | Some e => inl e
     | None =>
         inr (map (fun result =>
                     {| document := snd result; score := Fin (fst result) |})
                  (db_vectorSearch d (index_query this pq input) docs))
     end,
     {| agent_results := docs;
        io_log := log ++ [Aggregate (index_query this pq input)] |}).
Proof.
  unfold performMongoDBVectorSearch, with_db, aggregate_toArray, command,
    bind.
  rewrite this_db. simpl.
  destruct (db_failure d); reflexivity.
Qed.

Variable enc : Vectorizer.
Hypothesis this_vectorizer : vectorizer this = Some enc.

(** The brute-force search sends one [find], then one [encode] for each
    fetched document without an embedding; it fails when one of them
    does. *)
Lemma performInMemoryVectorSearch_run (docs : list Document)
    (log : list Event) :
  performInMemoryVectorSearch this pq input
    {| agent_results := docs; io_log := log |}
  = (match db_failure d with
     | Some e => inl e
     | None =>
         match all_or_rejection (rejects_first enc)
                 (map (backfill enc) (candidates d input docs)) with
         | inl e => inl e
         | inr documentsWithVectors =>
             inr (slice0 (maxResults this)
                    (sort lower_score
                       (filter (fun doc => geb (score doc) (minScore this))
                          (map (fun doc =>
                                  {| document := doc;
                                     score :=
                                       Fin (calculateCosineSimilarity
                                              (vector pq)
                                              (vector_embedding doc)) |})
                               documentsWithVectors))))
         end
     end,
     {| agent_results := docs;
        io_log :=
          log ++ Find (all_documents_query input) 1000
                 :: match db_failure d with
                    | Some _ => []
                    | None =>
                        map (fun doc => Encode (text_or_empty doc))
                            (filter lacks_embedding (candidates d input docs))
                    end |}).
Proof.
  unfold performInMemoryVectorSearch, with_db, find_limit_toArray, command.
  rewrite this_db. unfold bind at 1. cbn [record agent_results io_log].
  destruct (db_failure d) as [e|]; [reflexivity|].
  fold (all_documents_query input). fold (candidates d input docs).
  unfold bind, record, promise_all, settles_first.
  cbn [agent_results io_log]. rewrite this_vectorizer.
  rewrite (settle_all_map_run _ (backfill enc)
             (fun doc => if lacks_embedding doc
                         then [Encode (text_or_empty doc)] else [])).
  - rewrite encode_events, <- app_assoc. simpl.
    destruct (all_or_rejection _ _); reflexivity.
  - intros doc docs' log'. unfold backfill, lacks_embedding, with_vectorizer.
    rewrite this_vectorizer.
    destruct (vector_embedding doc) as [v|]; simpl.
    + unfold ret. now rewrite app_nil_r.
    + unfold bind, encode_call, ret, record. simpl.
      destruct (encode enc (text_or_empty doc)); reflexivity.
Qed.
End Runs.

End RunFacts.

(* ===================================================================== *)
(** ** Embedding backfill *)
(* ===================================================================== *)

Module BackfillFacts.

Import JsString JsNum JsArray Search MonadFacts RunFacts.
Local Open Scope R_scope.


(** The callbacks that reject are those of the documents on which the
    encoder fails. *)
Lemma backfill_rejects (enc : Vectorizer) (l : list Document) (e : Error) :
  In (inl e) (map (backfill enc) l) <-> fails_on enc l e.
Proof.
  unfold fails_on. rewrite in_map_iff. split.
  - intros [doc [H Hin]]. exists doc. unfold backfill in H.
    destruct (vector_embedding doc); [discriminate|].
    destruct (encode enc (text_or_empty doc)) as [e'|v] eqn:E;
      [|discriminate].
    injection H as <-. auto.
  - intros [doc [Hin [Hnone Henc]]]. exists doc. split; [|exact Hin].
    unfold backfill. now rewrite Hnone, Henc.
Qed.




(** C4, as amended: when the encoder fails on a fetched document that has no
    embedding, the whole brute-force search fails, and its error is one the
    encoder gave for such a document (which one, when several fail, depends
    on the encoder's timing); the search completes exactly when every such
    document is encoded. The [encode] calls of all of them have been sent in
    either case. *)
Theorem backfill_failure_is_fatal (this : SearchAgent) (d : Db)
    (enc : Vectorizer) (pq : ProcessedQuery) (input : Input) (w : World) :
  db this = Some d -> vectorizer this = Some enc -> db_failure d = None ->
  let fetched := candidates d input (agent_results w) in
  let run := performInMemoryVectorSearch this pq input w in
  ((exists e, fails_on enc fetched e) ->
   exists e, fails_on enc fetched e /\ fst run = inl e)
  /\ (forall e, fst run = inl e -> fails_on enc fetched e)
  /\ ((exists found, fst run = inr found)
      <-> (forall doc, In doc fetched -> vector_embedding doc = None ->
                       exists v, encode enc (text_or_empty doc) = inr v))
  /\ io_log (snd run)
     = io_log w ++ Find (all_documents_query input) 1000
                   :: map (fun doc => Encode (text_or_empty doc))
                          (filter lacks_embedding fetched).
Proof.
  intros Hdb Hvec Hok fetched run. unfold run. destruct w as [docs log].
  rewrite (performInMemoryVectorSearch_run this pq input Hdb Hvec), Hok.
  cbn [fst snd agent_results io_log] in *. fold fetched.
  set (rs := map (backfill enc) fetched).
  assert (Hinl : forall e,
             all_or_rejection (rejects_first enc) rs = inl e ->
             fails_on enc fetched e).
  { intros e H. apply backfill_rejects. fold rs.
    exact (all_or_rejection_inl _ _ H). }
  split; [|split; [|split; [|reflexivity]]].
  - intros [e He]. apply backfill_rejects in He. fold rs in He.
    destruct (all_or_rejection_fails (rejects_first enc) rs
                (ex_intro _ e He)) as [e' He'].
    exists e'. split; [now apply Hinl|]. now rewrite He'.
  - intros e H.
    destruct (all_or_rejection (rejects_first enc) rs) as [e'|ds] eqn:E;
      [|discriminate].
    injection H as <-. now apply Hinl.
  - split.
    + intros [found H] doc Hin Hnone.
      destruct (all_or_rejection (rejects_first enc) rs) as [e'|ds] eqn:E;
        [discriminate|].
      apply all_or_rejection_inr in E.
      destruct (encode enc (text_or_empty doc)) as [e|v] eqn:Ee; [|eauto].
      assert (Hf : In (inl e) rs)
        by (apply backfill_rejects; exists doc; auto).
      rewrite E in Hf. apply in_map_iff in Hf as [x [Hx _]]. discriminate.
    + intros Hall.
      destruct (all_or_rejection (rejects_first enc) rs) as [e|ds] eqn:E;
        [|eauto].
      destruct (Hinl e eq_refl) as [doc [Hin [Hnone Henc]]].
      destruct (Hall doc Hin Hnone) as [v Hv]. congruence.
Qed.

Lemma backfill_failure_is_fatal_witness :
  exists e,
    fails_on Examples.hasty_encoder
      [Examples.doc_bad; Examples.doc_worse; Examples.doc_good] e
    /\ fst (performInMemoryVectorSearch
              (Examples.agent_with (Some Examples.plain_db) true
                 (Some Examples.hasty_encoder))
              (Examples.pq_with_vector "good" [1]) (Examples.ask "good")
              (Examples.world_of
                 [Examples.doc_bad; Examples.doc_worse; Examples.doc_good]))
       = inl e.
Proof.
  apply (proj1 (backfill_failure_is_fatal
                  (Examples.agent_with (Some Examples.plain_db) true
                     (Some Examples.hasty_encoder))
                  (Examples.pq_with_vector "good" [1]) (Examples.ask "good")
                  (Examples.world_of
                     [Examples.doc_bad; Examples.doc_worse;
                      Examples.doc_good])
                  eq_refl eq_refl eq_refl)).
  exists (JsError "encoder down"), Examples.doc_bad.
  split; [left; reflexivity|]. split; reflexivity.
Defined.

(** C4, as stated, fails: with two documents to encode, the failure on the
    first one makes the search fail, although the second one is encoded and
    would score 1. *)
Lemma one_failed_encoding_fails_the_search :
  let this := Examples.agent_with (Some Examples.plain_db) true
                (Some Examples.picky_encoder) in
  let run := performInMemoryVectorSearch this
               (Examples.pq_with_vector "good" [1]) (Examples.ask "good")
               (Examples.world_of [Examples.doc_bad; Examples.doc_good]) in
  fst run = inl (JsError "encoder down")
  /\ io_log (snd run)
     = [Find (all_documents_query (Examples.ask "good")) 1000;
        Encode "bad"; Encode "good"]
  /\ backfill Examples.picky_encoder Examples.doc_good
     = inr (set_vector_embedding Examples.doc_good [1]).
Proof.
  repeat split; reflexivity.
Qed.

(** When two encodings fail, the error of the search is that of the
    rejection that arrives first, here the second document's. *)
Lemma earliest_rejection_is_reported :
  fst (performInMemoryVectorSearch
         (Examples.agent_with (Some Examples.plain_db) true
            (Some Examples.hasty_encoder))
         (Examples.pq_with_vector "good" [1]) (Examples.ask "good")
         (Examples.world_of
            [Examples.doc_bad; Examples.doc_worse; Examples.doc_good]))
  = inl (JsError "text rejected").
Proof. reflexivity. Qed.

End BackfillFacts.

(* ===================================================================== *)
(** ** Errors that reach the caller *)
(* ===================================================================== *)

Module ErrorFacts.

Import JsString JsNum JsArray Search MonadFacts RunFacts.
Local Open Scope string_scope.

Lemma processQuery_without_vectorizer (this : SearchAgent) (q : string)
    (w : World) :
  vectorizer this = None ->
  processQuery this q w
  = (inr {| original := q;
            normalized := toLowerCase q;
            keywords := query_keywords q;
            entities := extract_entities q;
            intent := query_intent q;
            vector := None |}, w).
Proof.
  intros Hv. unfold processQuery. rewrite Hv. reflexivity.
Qed.

(** C9: an input whose query is missing ([undefined]), [null] or the empty
    string is rejected by [validateInput]; unless the base class has already
    rejected the input, the error is "Search query is required". The entry
    point throws it without a call to the store or to the encoder: the world
    is left as it was. *)
Theorem empty_query_is_rejected (super_validateInput : Input -> Error + unit)
    (this : SearchAgent) (input : Input) (w : World) :
  query input = JUndefined \/ query input = JNull
  \/ query input = JString "" ->
  exists e,
    validateInput super_validateInput input = inl e
    /\ (forall u, super_validateInput input = inr u ->
                  e = JsError "Search query is required")
    /\ process super_validateInput this input w = (inl e, w).
Proof.
  intros Hq.
  assert (Hfalsy : truthy_value (query input) = false)
    by (destruct Hq as [-> | [-> | ->]]; reflexivity).
  unfold process, validateInput.
  destruct (super_validateInput input) as [e|u] eqn:Es.
  - exists e. repeat split. intros u Hu. discriminate Hu.
  - rewrite Hfalsy. simpl.
    exists (JsError "Search query is required"). repeat split.
Qed.

Lemma empty_query_is_rejected_witness :
  process Examples.accept_all Examples.text_agent (Examples.ask "")
          (Examples.world_of [Examples.doc_hi])
  = (inl (JsError "Search query is required"),
     Examples.world_of [Examples.doc_hi]).
Proof.
  destruct (empty_query_is_rejected Examples.accept_all Examples.text_agent
              (Examples.ask "") (Examples.world_of [Examples.doc_hi])
              (or_intror (or_intror eq_refl)))
    as [e [_ [He Hp]]].
  rewrite Hp. now rewrite (He tt eq_refl).
Defined.




End ErrorFacts.

(* ===================================================================== *)
(** ** The choice of the strategy *)
(* ===================================================================== *)

Module StrategyFacts.

Import JsString JsNum JsArray Search MonadFacts RunFacts ErrorFacts.
Local Open Scope string_scope.




End StrategyFacts.

(* ===================================================================== *)
(** ** The result set *)
(* ===================================================================== *)

Module ResultFacts.

Import JsString JsNum JsArray Search.
Import CosineFacts TextScoreFacts SortFacts RankFacts MonadFacts RunFacts.
Local Open Scope R_scope.

Lemma cosine_opposite :
  calculateCosineSimilarity (Some [1]) (Some [-1]) = -1.
Proof.
  rewrite cosine_unfold by reflexivity.
  assert (N1 : norm [1] = 1).
  { unfold norm. simpl. replace (1 * 1 + 0) with 1 by lra. apply sqrt_1. }
  assert (N2 : norm [-1] = 1).
  { unfold norm. simpl. replace (-1 * -1 + 0) with 1 by lra. apply sqrt_1. }
  rewrite N1, N2.
  assert (E : Reqb 1 0 = false) by (apply Reqb_false; lra).
  rewrite E. simpl. lra.
Qed.

Lemma rank_scores_map (this : SearchAgent) (found : list Scored)
    (pq : ProcessedQuery) :
  map result_score (rankResults this found pq)
  = map score (sort lower_score
                 (filter (fun r => geb (score r) (minScore this)) found)).
Proof. unfold rankResults. now rewrite map_map. Qed.

Lemma processQuery_with_vectorizer (this : SearchAgent) (enc : Vectorizer)
    (q : string) (v : list R) (w : World) :
  vectorizer this = Some enc -> encode enc q = inr v ->
  processQuery this q w
  = (inr {| original := q;
            normalized := toLowerCase q;
            keywords := query_keywords q;
            entities := extract_entities q;
            intent := query_intent q;
            vector := Some v |}, record (Encode q) w).
Proof.
  intros Hv He. unfold processQuery. rewrite Hv.
  unfold bind, encode_call. now rewrite He.
Qed.

(** The whole pipeline on the brute-force path, when every call succeeds. *)
Lemma process_brute_force_run (this : SearchAgent) (d : Db) (enc : Vectorizer)
    (q : string) (v : list R) (input : Input) (w : World)
    (ds : list Document) :
  db this = Some d -> vectorizer this = Some enc ->
  useVectorSearch this = true -> query input = JString q ->
  db_failure d = None -> hasVectorIndex (db_collections d) = false ->
  encode enc q = inr v ->
  all_or_rejection (rejects_first enc)
    (map (backfill enc) (candidates d input (agent_results w)))
  = inr ds ->
  exists resp,
    fst (_process this input w) = inr resp
    /\ map result_score (results resp)
       = map score
           (sort lower_score
              (filter (fun r => geb (score r) (minScore this))
                 (slice0 (maxResults this)
                    (sort lower_score
                       (filter (fun r => geb (score r) (minScore this))
                          (map (fun doc =>
                                  {| document := doc;
                                     score :=
                                       Fin (calculateCosineSimilarity (Some v)
                                              (vector_embedding doc)) |})
                               ds)))))).
Proof.
  intros Hdb Hv Hu Hq Hok Hidx Henc Hds.
  unfold _process. rewrite Hdb, Hq. unfold bind at 1.
  rewrite (processQuery_with_vectorizer this q w Hv Henc).
  rewrite Hu, Hv. cbn [is_some andb]. unfold bind at 1.
  unfold performVectorSearch. rewrite Hv. unfold bind at 1.
  unfold with_db, listCollections_toArray, command. rewrite Hdb, Hok, Hidx.
  destruct w as [docs log]. unfold record. cbn [agent_results io_log] in *.
  rewrite (performInMemoryVectorSearch_run this _ input Hdb Hv), Hok, Hds.
  eexists. split; [reflexivity|]. cbn [results]. apply rank_scores_map.
Qed.

(** The whole pipeline on the text path, when the store answers. *)
Lemma process_text_run (this : SearchAgent) (d : Db) (q : string)
    (input : Input) (w : World) :
  db this = Some d -> vectorizer this = None -> query input = JString q ->
  db_failure d = None ->
  exists resp w' pq,
    _process this input w = (inr resp, w')
    /\ fst (processQuery this q w) = inr pq
    /\ map result_score (results resp)
       = map score
           (sort lower_score
              (filter (fun r => geb (score r) (minScore this))
                 (map (fun doc =>
                         {| document := doc;
                            score := calculateTextScore doc pq |})
                      (cursor_limit (maxResults this)
                         (filter (db_matches d (text_query pq input))
                                 (agent_results w)))))).
Proof.
  intros Hdb Hv Hq Hok.
  unfold _process. rewrite Hdb, Hq. unfold bind.
  rewrite (ErrorFacts.processQuery_without_vectorizer this q w Hv).
  rewrite Hv, andb_false_r. destruct w as [docs log].
  rewrite (performTextSearch_run this _ input Hdb), Hok.
  eexists. eexists. eexists. split; [reflexivity|]. split; [reflexivity|].
  cbn [results]. apply rank_scores_map.
Qed.

(** Built with [minScore: -1], the brute-force search returns a document
    whose embedding is opposite to the query's, with the score -1. *)
Lemma opposite_document_is_returned :
  let this := constructor Examples.permissive_options in
  exists resp,
    fst (_process this (Examples.ask "north")
                  (Examples.world_of [Examples.doc_south]))
    = inr resp
    /\ map result_score (results resp) = [Fin (-1)]
    /\ ~ scores_within 0 1 (results resp).
Proof.
  cbv zeta.
  destruct (process_brute_force_run
              (constructor Examples.permissive_options)
              (d := Examples.plain_db)
              (enc := Examples.constant_encoder [1])
              (q := "north") (v := [1])
              (Examples.ask "north")
              (Examples.world_of [Examples.doc_south])
              (ds := [Examples.doc_south])
              eq_refl eq_refl eq_refl eq_refl eq_refl eq_refl eq_refl eq_refl)
    as [resp [Hrun Hscores]].
  assert (Hmin : minScore (constructor Examples.permissive_options) = -1).
  { unfold constructor, Examples.permissive_options. simpl.
    assert (E : Reqb (-1) 0 = false) by (apply Reqb_false; lra).
    now rewrite E. }
  assert (Hge : Rleb (-1) (-1) = true) by (apply Rleb_true; lra).
  rewrite Hmin in Hscores.
  cbn [map vector_embedding Examples.doc_south Examples.mkdoc] in Hscores.
  rewrite cosine_opposite in Hscores.
  cbn [filter score geb] in Hscores. rewrite Hge in Hscores.
  cbn [sort insert slice0 firstn maxResults constructor or_count
       Examples.permissive_options opt_maxResults filter score geb]
    in Hscores.
  rewrite Hge in Hscores. cbn [sort insert map score] in Hscores.
  exists resp. split; [exact Hrun|]. split; [exact Hscores|].
  intros Hunit. unfold scores_within in Hunit.
  apply (Forall_map result_score (within 0 1)) in Hunit.
  rewrite Hscores in Hunit. inversion Hunit as [|x l Hx _]; subst.
  simpl in Hx. lra.
Qed.

(** What the text search hands to [rankResults]: scores in [[0, 1]], or
    [NaN]. *)
Lemma text_search_found (this : SearchAgent) (pq : ProcessedQuery)
    (input : Input) (w w' : World) (found : list Scored) :
  performTextSearch this pq input w = (inr found, w') ->
  Forall (fun a => score a = NaN \/ within 0 1 (score a)) found.
Proof.
  unfold performTextSearch. intros H.
  apply bind_inr in H as [docs [w1 [_ H]]].
  inversion H; subst. apply Forall_map, Forall_forall. intros doc _. simpl.
  apply text_score_range.
Qed.

(** X20: in every result set that [_process] returns, the scores are sorted
    non-increasing and none is below [minScore], and each result carries at
    most 3 snippets, sorted non-increasing by score; when the text search
    ran, every score lies in [[0, 1]]. *)
Theorem ranked_results_invariants (this : SearchAgent) (input : Input)
    (w w' : World) (resp : Response) :
  _process this input w = (inr resp, w') ->
  scores_sorted (results resp)
  /\ Forall (fun r => JsNum.ge (result_score r) (Fin (minScore this)))
            (results resp)
  /\ snippets_ranked (results resp)
  /\ (useVectorSearch this && is_some (vectorizer this) = false ->
      scores_within 0 1 (results resp)).
Proof.
  intros H. unfold _process in H.
  destruct (db this) as [d|]; [|discriminate H].
  destruct (query input) as [| | | |q|]; try discriminate H.
  apply bind_inr in H as [pq [w1 [_ H]]].
  apply bind_inr in H as [found [w2 [Hfound H]]].
  inversion H; subst resp w2. clear H. cbn [results].
  split; [apply rank_sorted|]. split; [apply rank_above_minScore|].
  split; [apply rank_snippets|].
  intros Hvec. rewrite Hvec in Hfound.
  apply rank_scores. exact (text_search_found _ _ _ _ Hfound).
Qed.

Lemma ranked_results_invariants_witness :
  exists resp w',
    _process (constructor Examples.default_options) (Examples.ask "machine")
             (Examples.world_of [Examples.doc_ml; Examples.doc_hi])
    = (inr resp, w')
    /\ List.length (results resp) = 1%nat
    /\ scores_sorted (results resp)
    /\ scores_within 0 1 (results resp)
    /\ snippets_ranked (results resp).
Proof.
  destruct (process_text_run (constructor Examples.default_options)
              (d := Examples.plain_db) (q := "machine")
              (Examples.ask "machine")
              (Examples.world_of [Examples.doc_ml; Examples.doc_hi])
              eq_refl eq_refl eq_refl eq_refl)
    as [resp [w' [pq [Hrun [Hpq Hscores]]]]].
  exists resp, w'. split; [exact Hrun|].
  destruct (ranked_results_invariants
              (constructor Examples.default_options)
              (Examples.ask "machine") _ Hrun)
    as [Hsorted [_ [Hsnip Htext]]].
  pose proof (Htext eq_refl) as Hunit.
  split; [|auto].
  inversion Hpq; subst pq. clear Hpq.
  match type of Hscores with
  | context [calculateTextScore _ ?p] => set (pq := p) in *
  end.
  assert (Hml : exists r, calculateTextScore Examples.doc_ml pq = Fin r
                          /\ 5 / 10 <= r).
  { eexists. split; [vm_compute; reflexivity|].
    unfold Rmin. destruct (Rle_dec _ _); lra. }
  assert (Hhi : exists r, calculateTextScore Examples.doc_hi pq = Fin r
                          /\ r < 5 / 10).
  { eexists. split; [vm_compute; reflexivity|].
    unfold Rmin. destruct (Rle_dec _ _); lra. }
  destruct Hml as [a [Ea Ha]], Hhi as [b [Eb Hb]].
  apply Rleb_true in Ha. apply Rleb_false in Hb.
  apply (f_equal (@List.length num)) in Hscores.
  rewrite !length_map, sort_length in Hscores.
  cbn [agent_results Examples.world_of cursor_limit filter db_matches
       Examples.plain_db maxResults constructor or_count opt_maxResults
       Examples.default_options firstn map minScore or_number opt_minScore
       score geb] in Hscores.
  rewrite Ea, Eb in Hscores. cbn [geb] in Hscores.
  rewrite Ha, Hb in Hscores. exact Hscores.
Defined.

End ResultFacts.

(* ===================================================================== *)
(** ** The range of the scores *)
(* ===================================================================== *)

Module ScoreRangeFacts.

Import Search PrimFloat.
Local Open Scope float_scope.

(** C5 (code bug): the scores of the brute-force vector search leave
    [[0, 1]], the range that the specification and the documentation of
    [calculateCosineSimilarity] give. An agent built with [minScore: -1]
    returns a document whose embedding is opposite to the query's with the
    score -1; and in doubles the similarity of [[2, 3]] with itself is
    1.0000000000000002, which passes the default minimum 0.5 and is above
    1. Ranking neither clamps nor drops such a score. *)
Theorem scores_leave_the_unit_interval :
  (exists resp,
      fst (_process (constructor Examples.permissive_options)
                    (Examples.ask "north")
                    (Examples.world_of [Examples.doc_south]))
      = inr resp
      /\ map result_score (results resp) = [JsNum.Fin (-1)]
      /\ ~ scores_within 0 1 (results resp))
  /\ Double.calculateCosineSimilarity (Some [1]) (Some [-1]) = -1
  /\ Double.calculateCosineSimilarity (Some [2; 3]) (Some [2; 3])
     = 1.0000000000000002
  /\ (0.5 <=? 1.0000000000000002) = true
  /\ (1.0000000000000002 <=? 1) = false.
Proof.
  split; [exact ResultFacts.opposite_document_is_returned|].
  repeat split; reflexivity.
Qed.

End ScoreRangeFacts.

(* ===================================================================== *)
(** ** More on query processing *)
(* ===================================================================== *)

Module QueryFacts.

Import JsString JsNum Search Notions.
Local Open Scope string_scope.

Lemma lower_char_idempotent (c : ascii) :
  lower_char (lower_char c) = lower_char c.
Proof.
  destruct c as [[] [] [] [] [] [] [] []]; vm_compute; reflexivity.
Qed.

Lemma toLowerCase_idempotent (s : string) :
  toLowerCase (toLowerCase s) = toLowerCase s.
Proof.
  induction s as [|c s IH]; simpl; [reflexivity|].
  now rewrite lower_char_idempotent, IH.
Qed.

Lemma toLowerCase_length (s : string) :
  String.length (toLowerCase s) = String.length s.
Proof. induction s as [|c s IH]; simpl; congruence. Qed.

(** Strings as concatenations. *)
Lemma append_assoc (a b c : string) : ((a ++ b) ++ c = a ++ (b ++ c))%string.
Proof. induction a as [|x a IH]; simpl; congruence. Qed.

Lemma length_append (a b : string) :
  String.length (a ++ b) = String.length a + String.length b.
Proof. induction a as [|x a IH]; simpl; congruence. Qed.

Lemma prefix_append (a b : string) : prefix a (a ++ b) = true.
Proof.
  induction a as [|x a IH]; simpl; [destruct b; reflexivity|].
  destruct (ascii_dec x x); [exact IH|contradiction].
Qed.

Lemma includes_unfold (h n : string) :
  includes h n
  = prefix n h || match h with
                  | EmptyString => false
                  | String _ h' => includes h' n
                  end.
Proof. destruct h; reflexivity. Qed.

(** A string occurs in every string built around it. *)
Lemma includes_middle (a n b : string) : includes (a ++ n ++ b) n = true.
Proof.
  induction a as [|x a IH]; simpl append.
  - rewrite includes_unfold, prefix_append. reflexivity.
  - rewrite includes_unfold, IH. apply orb_true_r.
Qed.

Lemma substring_from_start (s : string) (m : nat) :
  String.length s <= m -> substring 0 m s = s.
Proof.
  revert m. induction s as [|c s IH]; intros [|m] H; simpl in *;
    try reflexivity; try lia.
  rewrite IH by lia. reflexivity.
Qed.

Lemma literal_append (l s rest : string) :
  literal l s = Some rest -> s = l ++ rest.
Proof.
  unfold literal. destruct (prefix l s) eqn:E; [|discriminate].
  intros H. inversion H; subst rest. clear H.
  generalize (Nat.le_refl (String.length s)).
  generalize (String.length s) at 2 3. intros m.
  revert s E. induction l as [|a l IH]; intros s E Hm.
  - simpl. now rewrite substring_from_start.
  - destruct s as [|b s]; [discriminate|]. simpl in E.
    destruct (ascii_dec a b) as [->|]; [|discriminate].
    simpl in *. f_equal. apply IH; [exact E|lia].
Qed.

Lemma exactly_append (p : ascii -> bool) (n : nat) (s m rest : string) :
  exactly p n s = Some (m, rest) ->
  s = m ++ rest /\ String.length m = n.
Proof.
  revert s m rest. induction n as [|n IH]; intros s m rest; simpl.
  - intros H. inversion H; subst. auto.
  - destruct s as [|c s]; [discriminate|].
    destruct (p c); [|discriminate].
    destruct (exactly p n s) as [[m' rest']|] eqn:E; [|discriminate].
    intros H. inversion H; subst. destruct (IH _ _ _ E) as [-> <-]. auto.
Qed.

Lemma span_append (p : ascii -> bool) (s run rest : string) :
  span p s = (run, rest) -> s = run ++ rest.
Proof.
  revert run rest. induction s as [|c s IH]; intros run rest; simpl.
  - intros H. now inversion H.
  - destruct (p c).
    + destruct (span p s) as [run' rest'] eqn:E.
      intros H. inversion H; subst. simpl. f_equal. now apply IH.
    + intros H. now inversion H.
Qed.

(** Where the three patterns match, and what they return. *)
Lemma date_here_match (s : string) (ms : list string) :
  date_here s = Some ms ->
  exists t rest, ms = [t] /\ s = t ++ rest /\ String.length t = 10.
Proof.
  unfold date_here.
  destruct (exactly is_digit 4 s) as [[y r1]|] eqn:E1; [|discriminate].
  destruct (literal "-" r1) as [r2|] eqn:L1; [|discriminate].
  destruct (exactly is_digit 2 r2) as [[m r3]|] eqn:E2; [|discriminate].
  destruct (literal "-" r3) as [r4|] eqn:L2; [|discriminate].
  destruct (exactly is_digit 2 r4) as [[d r5]|] eqn:E3; [|discriminate].
  destruct (word_end r5); [|discriminate].
  intros H. inversion H; subst. clear H.
  apply exactly_append in E1 as [-> Hy], E2 as [-> Hm], E3 as [-> Hd].
  apply literal_append in L1 as ->. apply literal_append in L2 as ->.
  exists (y ++ "-" ++ m ++ "-" ++ d), r5. split; [reflexivity|]. split.
  - now rewrite !append_assoc.
  - rewrite !length_append, Hy, Hm, Hd. reflexivity.
Qed.

Lemma capitalized_then_space_match (s w rest : string) :
  capitalized_then_space s = Some (w, rest) -> s = w ++ " " ++ rest.
Proof.
  unfold capitalized_then_space. destruct s as [|c s1]; [discriminate|].
  destruct (is_upper c); [|discriminate].
  destruct (span is_lower s1) as [run r] eqn:E.
  destruct run as [|l ls]; [discriminate|].
  destruct r as [|sp r]; [discriminate|].
  destruct sp as [[] [] [] [] [] [] [] []]; try discriminate.
  intros H. inversion H; subst. apply span_append in E. subst s1.
  reflexivity.
Qed.

Lemma person_here_match (s : string) (ms : list string) :
  person_here s = Some ms -> exists t rest, ms = [t] /\ s = t ++ rest.
Proof.
  unfold person_here.
  destruct (capitalized_then_space s) as [[first r]|] eqn:E; [|discriminate].
  destruct r as [|c s1]; [discriminate|].
  destruct (is_upper c); [|discriminate].
  destruct (span is_lower s1) as [run rest] eqn:Es.
  destruct run as [|l ls]; [discriminate|].
  destruct (word_end rest); [|discriminate].
  intros H. inversion H; subst. clear H.
  apply capitalized_then_space_match in E. apply span_append in Es.
  subst. eexists. exists rest. split; [reflexivity|].
  simpl. rewrite !append_assoc. simpl. reflexivity.
Qed.

Lemma suffix_here_match (alternatives : list string) (s alt : string) :
  suffix_here alternatives s = Some alt ->
  In alt alternatives /\ exists rest, s = alt ++ rest.
Proof.
  induction alternatives as [|a more IH]; simpl; [discriminate|].
  destruct (literal a s) as [rest|] eqn:L.
  - destruct (word_end rest).
    + intros H. inversion H; subst. apply literal_append in L. eauto.
    + intros H. destruct (IH H) as [Hin Hrest]. auto.
  - intros H. destruct (IH H) as [Hin Hrest]. auto.
Qed.

Lemma organization_here_match (s : string) (ms : list string) :
  organization_here s = Some ms ->
  exists name suffix rest,
    ms = [name ++ " " ++ suffix; suffix]
    /\ s = (name ++ " " ++ suffix) ++ rest
    /\ In suffix ["Inc"; "Corp"; "LLC"; "Ltd"].
Proof.
  unfold organization_here.
  destruct (capitalized_then_space s) as [[name r]|] eqn:E; [|discriminate].
  destruct (suffix_here _ r) as [suffix|] eqn:Es; [|discriminate].
  intros H. inversion H; subst. clear H.
  apply capitalized_then_space_match in E.
  apply suffix_here_match in Es as [Hin [rest ->]].
  exists name, suffix, rest. split; [reflexivity|]. split; [|exact Hin].
  subst s. now rewrite !append_assoc.
Qed.

(** The leftmost match starts somewhere in the string. *)
Lemma match_from_here (here : string -> option (list string))
    (after_word : bool) (s : string) (ms : list string) :
  match_from here after_word s = Some ms ->
  exists before s', s = before ++ s' /\ here s' = Some ms.
Proof.
  revert after_word. induction s as [|c s IH]; intros after_word; simpl.
  - destruct (if after_word then None else here "") eqn:E; [|discriminate].
    intros H. inversion H; subst. destruct after_word; [discriminate|].
    exists "", "". auto.
  - destruct (if after_word then None else here (String c s)) eqn:E.
    + intros H. inversion H; subst. destruct after_word; [discriminate|].
      exists "", (String c s). auto.
    + intros H. destruct (IH _ H) as [before [s' [-> Hs']]].
      exists (String c before), s'. auto.
Qed.

(** What a processed query holds, whatever the encoder answers. *)
Lemma processQuery_fields (this : SearchAgent) (q : string) (w w' : World)
    (pq : ProcessedQuery) :
  processQuery this q w = (inr pq, w') ->
  original pq = q
  /\ normalized pq = toLowerCase q
  /\ keywords pq = query_keywords q
  /\ entities pq = extract_entities q
  /\ intent pq = query_intent q.
Proof.
  unfold processQuery. intros H.
  apply MonadFacts.bind_inr in H as [v [w1 [_ H]]].
  inversion H; subst. repeat split.
Qed.

(** X1: a query yields at most one date, one person and one organization,
    in that order. A date has 10 characters. An organization gives two
    entities: the whole match and, as an entity of its own, the legal suffix
    ([Inc], [Corp], [LLC] or [Ltd]) that the pattern captures. *)
Theorem entities_shape (this : SearchAgent) (q : string) (w w' : World)
    (pq : ProcessedQuery) :
  processQuery this q w = (inr pq, w') ->
  exists dates persons organizations,
    entities pq = (dates ++ persons ++ organizations)%list
    /\ (dates = []
        \/ exists t, dates = [ {| ent_text := t; ent_type := DATE |} ]
                     /\ String.length t = 10)
    /\ (persons = []
        \/ exists t, persons = [ {| ent_text := t; ent_type := PERSON |} ])
    /\ (organizations = []
        \/ exists name suffix,
             organizations
             = [ {| ent_text := name ++ " " ++ suffix;
                    ent_type := ORGANIZATION |};
                 {| ent_text := suffix; ent_type := ORGANIZATION |} ]
             /\ In suffix ["Inc"; "Corp"; "LLC"; "Ltd"])
    /\ List.length (entities pq) <= 4.
Proof.
  intros H. apply processQuery_fields in H as [_ [_ [_ [He _]]]].
  rewrite He. unfold extract_entities, entityPatterns. cbn [flat_map].
  rewrite app_nil_r.
  set (ds := match match_from date_here false q with
             | Some _ => _ | None => _ end).
  set (ps := match match_from person_here false q with
             | Some _ => _ | None => _ end).
  set (os := match match_from organization_here false q with
             | Some _ => _ | None => _ end).
  assert (Hd : ds = [] \/ exists t,
               ds = [ {| ent_text := t; ent_type := DATE |} ]
               /\ String.length t = 10).
  { unfold ds. destruct (match_from date_here false q) as [ms|] eqn:E;
      [|now left].
    apply match_from_here in E as [before [s' [_ E]]].
    apply date_here_match in E as [t [rest [-> [_ Hlen]]]].
    right. exists t. auto. }
  assert (Hp : ps = [] \/ exists t,
               ps = [ {| ent_text := t; ent_type := PERSON |} ]).
  { unfold ps. destruct (match_from person_here false q) as [ms|] eqn:E;
      [|now left].
    apply match_from_here in E as [before [s' [_ E]]].
    apply person_here_match in E as [t [rest [-> _]]].
    right. exists t. auto. }
  assert (Ho : os = [] \/ exists name suffix,
               os = [ {| ent_text := name ++ " " ++ suffix;
                         ent_type := ORGANIZATION |};
                      {| ent_text := suffix; ent_type := ORGANIZATION |} ]
               /\ In suffix ["Inc"; "Corp"; "LLC"; "Ltd"]).
  { unfold os.
    destruct (match_from organization_here false q) as [ms|] eqn:E;
      [|now left].
    apply match_from_here in E as [before [s' [_ E]]].
    apply organization_here_match in E as [name [suffix [rest [-> [_ Hin]]]]].
    right. exists name, suffix. auto. }
  exists ds, ps, os. repeat (split; [assumption || reflexivity|]).
  rewrite !length_app.
  destruct Hd as [->|[t [-> _]]], Hp as [->|[t' ->]],
           Ho as [->|[n [x [-> _]]]]; simpl; lia.
Qed.

Lemma entities_shape_witness :
  List.length (extract_entities entity_query) <= 4.
Proof.
  destruct (entities_shape Examples.text_agent entity_query
              (Examples.world_of []) eq_refl)
    as [ds [ps [os [_ [_ [_ [_ Hlen]]]]]]].
  exact Hlen.
Defined.

(** X2: the text of every entity occurs in the query as it was typed. *)
Theorem entities_occur_in_query (this : SearchAgent) (q : string)
    (w w' : World) (pq : ProcessedQuery) :
  processQuery this q w = (inr pq, w') ->
  Forall (fun e => includes q (ent_text e) = true) (entities pq).
Proof.
  intros H. apply processQuery_fields in H as [_ [_ [_ [He _]]]].
  rewrite He. unfold extract_entities, entityPatterns. cbn [flat_map].
  rewrite app_nil_r.
  apply Forall_app; split; [|apply Forall_app; split].
  - destruct (match_from date_here false q) as [ms|] eqn:E; [|constructor].
    apply match_from_here in E as [before [s' [-> E]]].
    apply date_here_match in E as [t [rest [-> [-> _]]]].
    repeat constructor. apply includes_middle.
  - destruct (match_from person_here false q) as [ms|] eqn:E; [|constructor].
    apply match_from_here in E as [before [s' [-> E]]].
    apply person_here_match in E as [t [rest [-> ->]]].
    repeat constructor. apply includes_middle.
  - destruct (match_from organization_here false q) as [ms|] eqn:E;
      [|constructor].
    apply match_from_here in E as [before [s' [-> E]]].
    apply organization_here_match in E as [name [suffix [rest [-> [-> _]]]]].
    repeat constructor; cbn [ent_text].
    + apply includes_middle.
    + replace (before ++ (name ++ " " ++ suffix) ++ rest)
        with ((before ++ name ++ " ") ++ suffix ++ rest)
        by (now rewrite !append_assoc).
      apply includes_middle.
Qed.

Lemma entities_occur_in_query_witness :
  Forall (fun e => includes entity_query (ent_text e) = true)
         (extract_entities entity_query).
Proof.
  exact (entities_occur_in_query Examples.text_agent entity_query
           (Examples.world_of []) eq_refl).
Defined.

(** X3: the keywords, the normalized string and the intent of a query do not
    depend on its case: the query and its lower-cased form are processed to
    the same three. *)
Theorem query_processing_ignores_case (this : SearchAgent) (q : string)
    (w1 w1' w2 w2' : World) (pq pq' : ProcessedQuery) :
  processQuery this q w1 = (inr pq, w1') ->
  processQuery this (toLowerCase q) w2 = (inr pq', w2') ->
  keywords pq' = keywords pq
  /\ normalized pq' = normalized pq
  /\ intent pq' = intent pq.
Proof.
  intros H H'.
  apply processQuery_fields in H as [_ [Hn [Hk [_ Hi]]]].
  apply processQuery_fields in H' as [_ [Hn' [Hk' [_ Hi']]]].
  rewrite Hn, Hk, Hi, Hn', Hk', Hi'.
  unfold query_keywords, query_intent.
  now rewrite !toLowerCase_idempotent.
Qed.

Lemma query_processing_ignores_case_witness :
  query_keywords "machine learning" = query_keywords "Machine LEARNING".
Proof.
  destruct (query_processing_ignores_case
              Examples.text_agent "Machine LEARNING"
              (Examples.world_of []) (Examples.world_of [])
              eq_refl eq_refl) as [Hk _].
  exact Hk.
Defined.

End QueryFacts.

(* ===================================================================== *)
(** ** More on the text score *)
(* ===================================================================== *)

Module TextScoreBounds.

Import JsString JsNum Search Notions CosineFacts.
Local Open Scope R_scope.

(** A share of the matched elements of a non-empty list, scaled by [c], is a
    number between 0 and [c]. *)
Lemma share_bounds (A : Type) (f : A -> bool) (l : list A) (c : R) :
  0 <= c -> l <> [] ->
  exists x,
    mul (div_length (List.length (filter f l)) (List.length l)) (Fin c) = Fin x
    /\ 0 <= x <= c.
Proof.
  intros Hc Hl. destruct l as [|a l]; [contradiction|].
  set (m := List.length (filter f (a :: l))).
  set (n := List.length (a :: l)).
  assert (Hmn : (m <= n)%nat) by apply filter_length_le.
  assert (Hn : (0 < n)%nat) by (unfold n; simpl; lia).
  assert (E : div_length m n = Fin (INR m / INR n))
    by (unfold n; reflexivity).
  clearbody m n. rewrite E. cbn [mul]. eexists. split; [reflexivity|].
  assert (H0 : 0 < INR n) by (apply lt_0_INR; exact Hn).
  assert (H1 : 0 <= INR m) by apply pos_INR.
  assert (H2 : INR m <= INR n) by (apply le_INR; exact Hmn).
  assert (H3 : 0 <= INR m / INR n <= 1).
  { split; apply Rmult_le_reg_r with (INR n); try exact H0;
      replace (INR m / INR n * INR n) with (INR m) by (field; lra); lra. }
  split; [apply Rmult_le_pos; lra|].
  replace c with (1 * c) at 2 by lra.
  apply Rmult_le_compat_r; lra.
Qed.

(** X4: the text score is [NaN] exactly when the document has text and the
    query has no keyword. *)
Theorem text_score_is_NaN_iff (result : Document) (pq : ProcessedQuery) :
  calculateTextScore result pq = NaN
  <-> has_text result = true /\ keywords pq = [].
Proof.
  unfold calculateTextScore. cbv zeta.
  destruct (has_text result) eqn:Ht; cbn [andb].
  - destruct (keywords pq) as [|k ks] eqn:Ek.
    + cbn [filter List.length div_length mul add].
      split; [auto|intros _].
      destruct (includes _ _);
        (destruct (analysis (output result)) as [a|];
         [destruct (analysis_entities a) as [es|]|]);
        try destruct (0 <? _)%nat; reflexivity.
    + split; [|intros [_ H]; discriminate H].
      destruct (share_bounds
                  (fun k0 => includes (toLowerCase (text_or_empty result)) k0)
                  (l := k :: ks) (c := 3 / 10)) as [b [Hb _]];
        [lra|discriminate|].
      rewrite Hb.
      destruct (includes _ _);
        (destruct (analysis (output result)) as [a|];
         [destruct (analysis_entities a) as [es|]|]);
        try (destruct (entities pq) as [|e es'] eqn:Ee;
             [|destruct (share_bounds
                           (fun e0 => JsArray.includes
                                        (toLowerCase (ent_text e0))
                                        (map toLowerCase es))
                           (l := e :: es') (c := 2 / 10))
                 as [x [Hx _]]; [lra|discriminate|];
               rewrite Hx; cbn [List.length Nat.ltb Nat.leb]]);
        cbn; discriminate.
  - split; [|intros [H _]; discriminate H].
    (destruct (analysis (output result)) as [a|];
     [destruct (analysis_entities a) as [es|]|]);
      try (destruct (entities pq) as [|e es'] eqn:Ee;
           [|destruct (share_bounds
                         (fun e0 => JsArray.includes
                                      (toLowerCase (ent_text e0))
                                      (map toLowerCase es))
                         (l := e :: es') (c := 2 / 10))
               as [x [Hx _]]; [lra|discriminate|];
             rewrite Hx; cbn [List.length Nat.ltb Nat.leb]]);
      cbn; discriminate.
Qed.

(** The three terms of the score of a query that has keywords. *)
Lemma text_score_terms (result : Document) (pq : ProcessedQuery) :
  keywords pq <> [] ->
  exists b c,
    calculateTextScore result pq
    = Fin (Rmin 1
             ((if has_text result
                  && includes (toLowerCase (text_or_empty result))
                              (normalized pq)
               then 5 / 10 else 0) + b + c))
    /\ 0 <= b <= 3 / 10
    /\ 0 <= c <= 2 / 10
    /\ (entities pq = [] -> c = 0).
Proof.
  intros Hk. unfold calculateTextScore. cbv zeta.
  destruct (share_bounds
              (fun k0 => includes (toLowerCase (text_or_empty result)) k0)
              (l := keywords pq) (c := 3 / 10)) as [b [Hb Bb]];
    [lra|exact Hk|].
  rewrite Hb.
  assert (Entity : forall es,
             exists c,
               (if (0 <? List.length (entities pq))%nat
                then Some
                       (mul (div_length
                               (List.length
                                  (filter
                                     (fun e0 =>
                                        JsArray.includes
                                          (toLowerCase (ent_text e0))
                                          (map toLowerCase es))
                                     (entities pq)))
                               (List.length (entities pq)))
                            (Fin (2 / 10)))
                else None)
               = (if (0 <? List.length (entities pq))%nat
                  then Some (Fin c) else None)
               /\ 0 <= c <= 2 / 10 /\ (entities pq = [] -> c = 0)).
  { intros es. destruct (entities pq) as [|e es'] eqn:Ee.
    - exists 0. split; [reflexivity|]. split; [lra|reflexivity].
    - destruct (share_bounds
                  (fun e0 => JsArray.includes (toLowerCase (ent_text e0))
                                              (map toLowerCase es))
                  (l := e :: es') (c := 2 / 10)) as [c [Hc Bc]];
        [lra|discriminate|].
      exists c. rewrite Hc. split; [reflexivity|]. split; [exact Bc|].
      discriminate. }
  destruct (has_text result); cbn [andb];
    [destruct (includes _ _)|];
    (destruct (analysis (output result)) as [a|];
     [destruct (analysis_entities a) as [es|]|]);
    try (destruct (Entity es) as [c [Hc [Bc Zc]]];
         destruct (0 <? List.length (entities pq))%nat eqn:Epos;
         [inversion Hc as [Hc']; rewrite Hc'|]);
    cbn [add mul min1];
    first
      [ exists b, c; split; [do 2 apply f_equal; lra|];
        split; [exact Bb|]; split; [exact Bc|exact Zc]
      | exists b, 0; split; [do 2 apply f_equal; lra|];
        split; [exact Bb|]; split; [lra|reflexivity]
      | exists 0, c; split; [do 2 apply f_equal; lra|];
        split; [lra|]; split; [exact Bc|exact Zc]
      | exists 0, 0; split; [do 2 apply f_equal; lra|];
        split; [lra|]; split; [lra|reflexivity] ].
Qed.

(** X5: for a query with at least one keyword, a document whose text contains
    the whole normalized query scores between 0.5 and 1; any other document
    scores at most 0.5, and at most 0.3 when the query has no entity: it is
    then below the default minimum score, however many keywords it holds. *)
Theorem text_score_by_signal (result : Document) (pq : ProcessedQuery) :
  keywords pq <> [] ->
  let whole := has_text result
               && includes (toLowerCase (text_or_empty result))
                           (normalized pq) in
  (whole = true -> within (5 / 10) 1 (calculateTextScore result pq))
  /\ (whole = false ->
      within 0 (5 / 10) (calculateTextScore result pq)
      /\ (entities pq = [] ->
          within 0 (3 / 10) (calculateTextScore result pq)
          /\ geb (calculateTextScore result pq) (5 / 10) = false)).
Proof.
  intros Hk whole.
  destruct (text_score_terms result pq Hk) as [b [c [E [Bb [Bc Zc]]]]].
  fold whole in E. rewrite E. split; intros Hw; rewrite Hw; cbn [within].
  - unfold Rmin. destruct (Rle_dec _ _); lra.
  - split.
    + unfold Rmin. destruct (Rle_dec _ _); lra.
    + intros He. rewrite (Zc He). split.
      * unfold Rmin. destruct (Rle_dec _ _); lra.
      * cbn [geb]. apply Rleb_false.
        unfold Rmin. destruct (Rle_dec _ _); lra.
Qed.

Lemma text_score_by_signal_witness :
  within (5 / 10) 1
    (calculateTextScore Examples.doc_ml
       (Examples.pq_with_vector "machine" [1]))
  /\ geb (calculateTextScore Examples.doc_hi
            (Examples.pq_with_vector "machine" [1])) (5 / 10) = false.
Proof.
  split.
  - apply (proj1 (text_score_by_signal Examples.doc_ml
                    (Examples.pq_with_vector "machine" [1])
                    ltac:(discriminate))).
    reflexivity.
  - apply (proj2 (text_score_by_signal Examples.doc_hi
                    (Examples.pq_with_vector "machine" [1])
                    ltac:(discriminate)));
      reflexivity.
Defined.

End TextScoreBounds.

(* ===================================================================== *)
(** ** More on the cosine similarity *)
(* ===================================================================== *)

Module CosineMore.

Import JsNum JsArray Search Notions CosineFacts SortFacts RankFacts MonadFacts.
Local Open Scope R_scope.

(** X6: with a positive minimum score, as the default 0.5 is, the
    brute-force search only returns documents whose embedding has as many
    components as the query vector, and at least one: a document that was
    embedded with another dimension gets the similarity 0, whatever the two
    vectors hold, and is dropped without a notice. *)
Theorem mismatched_embeddings_are_dropped (this : SearchAgent)
    (pq : ProcessedQuery) (input : Input) (w w' : World)
    (found : list Scored) :
  0 < minScore this ->
  performInMemoryVectorSearch this pq input w = (inr found, w') ->
  Forall (fun a =>
            exists q v,
              vector pq = Some q
              /\ vector_embedding (document a) = Some v
              /\ List.length q = List.length v
              /\ q <> [])
         found.
Proof.
  intros Hmin H. unfold performInMemoryVectorSearch in H.
  apply bind_inr in H as [documents [w1 [_ H]]].
  apply bind_inr in H as [documentsWithVectors [w2 [_ H]]].
  injection H as <- _. unfold slice0.
  apply firstn_Forall, sort_Forall, Forall_forall.
  intros a Ha. apply filter_In in Ha as [Ha Hge].
  apply in_map_iff in Ha as [doc [<- _]]. cbn [document score] in *.
  apply geb_true in Hge as [r [E Hr]]. injection E as E.
  apply cosine_guards. rewrite E. lra.
Qed.

Lemma mismatched_embeddings_are_dropped_witness :
  exists found w',
    performInMemoryVectorSearch
      (Examples.agent_with (Some Examples.plain_db) true
         (Some (Examples.constant_encoder [1; 0])))
      (Examples.pq_with_vector "north" [1; 0]) (Examples.ask "north")
      (Examples.world_of [Examples.doc_north; Examples.doc_ml])
    = (inr found, w')
    /\ Forall (fun a =>
                 exists q v,
                   Some [1; 0] = Some q
                   /\ vector_embedding (document a) = Some v
                   /\ List.length q = List.length v
                   /\ q <> [])
              found.
Proof.
  eexists. eexists. split; [reflexivity|].
  eapply (mismatched_embeddings_are_dropped
            (Examples.agent_with (Some Examples.plain_db) true
               (Some (Examples.constant_encoder [1; 0])))
            (Examples.pq_with_vector "north" [1; 0]) (Examples.ask "north")
            (Examples.world_of [Examples.doc_north; Examples.doc_ml])).
  - cbn. lra.
  - reflexivity.
Defined.

End CosineMore.

(* ===================================================================== *)
(** ** More on ranking *)
(* ===================================================================== *)

Module RankingMore.

Import JsString JsNum JsArray Search Notions.
Import CosineFacts SortFacts RankFacts MonadFacts.
Local Open Scope R_scope.

Section Stable.
Variable A : Type.
Variable after : A -> A -> bool.
(** A class of elements none of which has to come after another one. *)
Variable same : A -> bool.
Hypothesis same_not_after :
  forall x y, same x = true -> same y = true -> after x y = false.

Lemma filter_insert (x : A) (l : list A) :
  filter same (insert after x l) = filter same (x :: l).
Proof.
  induction l as [|y l IH]; [reflexivity|].
  cbn [insert]. destruct (after x y) eqn:E; [|reflexivity].
  cbn [filter] in *. rewrite IH.
  destruct (same x) eqn:Sx, (same y) eqn:Sy; try reflexivity.
  rewrite (same_not_after Sx Sy) in E. discriminate.
Qed.

(** The sort is stable: it keeps the order of the elements of the class. *)
Lemma filter_sort (l : list A) :
  filter same (sort after l) = filter same l.
Proof.
  induction l as [|x l IH]; [reflexivity|].
  cbn [sort]. rewrite filter_insert. cbn [filter]. now rewrite IH.
Qed.
End Stable.

Lemma sort_of_sorted (A : Type) (after : A -> A -> bool)
    (before : A -> A -> Prop) (l : list A) :
  (forall x y, before x y -> after x y = false) ->
  StronglySorted before l -> sort after l = l.
Proof.
  intros H. induction 1 as [|x l Hs IH Hx]; [reflexivity|].
  cbn [sort]. rewrite IH. destruct l as [|y l]; [reflexivity|].
  cbn [insert]. inversion Hx as [|? ? Hxy _]; subst.
  now rewrite (H x y Hxy).
Qed.

Lemma filter_all (A : Type) (p : A -> bool) (l : list A) :
  Forall (fun x => p x = true) l -> filter p l = l.
Proof.
  induction 1 as [|x l Hx Hl IH]; [reflexivity|].
  cbn [filter]. now rewrite Hx, IH.
Qed.

Lemma filter_map_commute (A B : Type) (f : A -> B) (p : B -> bool)
    (l : list A) :
  filter p (map f l) = map f (filter (fun x => p (f x)) l).
Proof.
  induction l as [|x l IH]; [reflexivity|].
  cbn [map filter]. destruct (p (f x)); cbn [map]; now rewrite IH.
Qed.

Lemma same_score_not_lower (s : R) (a b : Scored) :
  scored_at s a = true -> scored_at s b = true -> lower_score a b = false.
Proof.
  unfold scored_at, lower_score.
  destruct (score a) as [x|], (score b) as [y|]; try discriminate.
  intros Ha Hb. apply Reqb_true in Ha, Hb. subst. cbn [sub positive].
  apply Rltb_false. lra.
Qed.

Lemma ge_not_lower (a b : Scored) :
  JsNum.ge (score a) (score b) -> lower_score a b = false.
Proof.
  unfold lower_score.
  destruct (score a) as [x|], (score b) as [y|]; cbn; try tauto.
  intros H. apply Rltb_false. lra.
Qed.

(** X8: ranking keeps exactly the found documents whose score is at least
    [minScore], each one once, and leaves documents of equal score in the
    order in which they were retrieved. *)
Theorem ranking_keeps_and_orders (this : SearchAgent) (found : list Scored)
    (pq : ProcessedQuery) :
  let kept := filter (fun a => geb (score a) (minScore this)) found in
  Permutation (map id (rankResults this found pq))
              (map (fun a => _id (document a)) kept)
  /\ List.length (rankResults this found pq) = List.length kept
  /\ forall s,
       map id (filter (result_at s) (rankResults this found pq))
       = map (fun a => _id (document a)) (filter (scored_at s) kept).
Proof.
  intros kept. unfold rankResults. fold kept. split; [|split].
  - rewrite map_map. cbn [id]. apply Permutation_map, sort_perm.
  - now rewrite length_map, sort_length.
  - intros s. rewrite filter_map_commute, map_map. cbn [id].
    change (fun x : Scored => result_at s _) with (scored_at s).
    f_equal. apply filter_sort. apply same_score_not_lower.
Qed.

(** X9: the brute-force search has already filtered and sorted what it
    returns, so ranking neither drops nor reorders any of it. *)
Theorem ranking_keeps_brute_force_order (this : SearchAgent)
    (pq pq' : ProcessedQuery) (input : Input) (w w' : World)
    (found : list Scored) :
  performInMemoryVectorSearch this pq input w = (inr found, w') ->
  map (fun r => (id r, result_score r)) (rankResults this found pq')
  = map (fun a => (_id (document a), score a)) found.
Proof.
  unfold performInMemoryVectorSearch. intros H.
  apply bind_inr in H as [documents [w1 [_ H]]].
  apply bind_inr in H as [documentsWithVectors [w2 [_ H]]].
  injection H as Hfound _. subst found.
  set (kept := slice0 _ _).
  assert (Hp : Forall (fun a => geb (score a) (minScore this) = true) kept).
  { unfold kept, slice0.
    apply firstn_Forall, sort_Forall, filter_Forall_true. }
  assert (Hs : StronglySorted (fun a b => JsNum.ge (score a) (score b)) kept).
  { unfold kept, slice0. apply firstn_sorted, sort_by_score.
    eapply Forall_impl; [|apply filter_Forall_true].
    intros a Ha. apply geb_true in Ha as [r [E _]]. eauto. }
  clearbody kept. unfold rankResults.
  rewrite (filter_all (fun a => geb (score a) (minScore this)) Hp).
  rewrite (sort_of_sorted lower_score ge_not_lower Hs).
  now rewrite map_map.
Qed.

Lemma ranking_keeps_brute_force_order_witness :
  exists found,
    fst (performInMemoryVectorSearch
           (Examples.agent_with (Some Examples.plain_db) true
              (Some (Examples.constant_encoder [1])))
           (Examples.pq_with_vector "north" [1]) (Examples.ask "north")
           (Examples.world_of [Examples.doc_north; Examples.doc_south]))
    = inr found
    /\ map (fun r => (id r, result_score r))
           (rankResults
              (Examples.agent_with (Some Examples.plain_db) true
                 (Some (Examples.constant_encoder [1])))
              found (Examples.pq_with_vector "north" [1]))
       = map (fun a => (_id (document a), score a)) found.
Proof.
  eexists. split; [reflexivity|].
  eapply ranking_keeps_brute_force_order
    with (input := Examples.ask "north")
         (w := Examples.world_of [Examples.doc_north; Examples.doc_south]).
  reflexivity.
Defined.

End RankingMore.

(* ===================================================================== *)
(** ** More on snippets *)
(* ===================================================================== *)

Module SnippetFacts.

Import JsString JsNum JsArray Search Notions.
Import CosineFacts KeywordFacts SortFacts.
Import PrimFloat.
Local Open Scope R_scope.









(** The sum that doubles give for the query and three keywords is below
    0.8, and the one for the query and ten keywords is above 1.5. *)
Lemma sentence_score_rounds :
  Double.sentence_score "deep learning"
    ["deep"%string; "learning"%string; "model"%string]
    "Deep learning is a model"
  = 0.7999999999999999%float
  /\ Nat.iter 10 (fun score => (score + 0.1)%float) 0.5%float
     = 1.5000000000000002%float.
Proof. split; reflexivity. Qed.

End SnippetFacts.

(* ===================================================================== *)
(** ** More on the pipeline *)
(* ===================================================================== *)

Module PipelineFacts.

Import JsString JsNum JsArray Search Notions.
Import CosineFacts SortFacts RankFacts MonadFacts RunFacts ErrorFacts.
Import ResultFacts.
Local Open Scope string_scope.

(** X11: the query is sent to the encoder whenever an encoder is configured,
    also when the agent runs the text search: if that call fails, [_process]
    fails with the encoder's error, and the store has not been called. *)
Theorem query_encoding_failure_is_fatal (this : SearchAgent) (d : Db)
    (enc : Vectorizer) (q : string) (e : Error) (input : Input) (w : World) :
  db this = Some d -> vectorizer this = Some enc ->
  query input = JString q -> encode enc q = inl e ->
  _process this input w
  = (inl e, {| agent_results := agent_results w;
               io_log := io_log w ++ [Encode q] |}).
Proof.
  intros Hdb Hv Hq He. unfold _process. rewrite Hdb, Hq.
  unfold bind at 1. unfold processQuery. rewrite Hv.
  unfold bind, encode_call. rewrite He. reflexivity.
Qed.

Lemma query_encoding_failure_is_fatal_witness :
  _process (Examples.agent_with (Some Examples.plain_db) false
              (Some failing_encoder))
           (Examples.ask "machine") (Examples.world_of [Examples.doc_ml])
  = (inl (JsError "encoder down"),
     {| agent_results := [Examples.doc_ml];
        io_log := [Encode "machine"] |}).
Proof.
  exact (query_encoding_failure_is_fatal
           (Examples.agent_with (Some Examples.plain_db) false
              (Some failing_encoder))
           (Examples.ask "machine") (Examples.world_of [Examples.doc_ml])
           eq_refl eq_refl eq_refl eq_refl).
Defined.

(** X12: a response echoes the query, which was a string, and counts its
    results; its [search_type] is read off the [useVectorSearch] flag, not
    off the search that ran. *)
Theorem response_bookkeeping (this : SearchAgent) (input : Input)
    (w w' : World) (resp : Response) :
  _process this input w = (inr resp, w') ->
  exists q,
    query input = JString q
    /\ response_query resp = q
    /\ original (processed_query resp) = q
    /\ normalized (processed_query resp) = toLowerCase q
    /\ total_results resp = List.length (results resp)
    /\ search_type resp = (if useVectorSearch this then "vector" else "text")
    /\ db this <> None.
Proof.
  unfold _process. intros H.
  destruct (db this) as [d|]; [|discriminate].
  destruct (query input) as [| | | |q|]; try discriminate.
  apply bind_inr in H as [pq [w1 [Hpq H]]].
  apply bind_inr in H as [found [w2 [_ H]]].
  inversion H; subst. cbn.
  apply QueryFacts.processQuery_fields in Hpq as [Ho [Hn _]].
  exists q. repeat split; try assumption. discriminate.
Qed.

Lemma response_bookkeeping_witness :
  exists resp,
    fst (_process (Examples.agent_with (Some Examples.plain_db) true None)
                  (Examples.ask "Machine")
                  (Examples.world_of [Examples.doc_ml]))
    = inr resp
    /\ search_type resp = "vector"
    /\ normalized (processed_query resp) = "machine".
Proof.
  eexists. split; [reflexivity|].
  destruct (response_bookkeeping
              (Examples.agent_with (Some Examples.plain_db) true None)
              (Examples.ask "Machine")
              (Examples.world_of [Examples.doc_ml]) eq_refl)
    as [q [Hq [_ [_ [Hn [_ [Ht _]]]]]]].
  inversion Hq; subst q. split; [exact Ht|exact Hn].
Defined.

(** X13: the text search sends a single [find], limited to [maxResults],
    and ranks what comes back: a matching document beyond the first
    [maxResults] matches in the store's order is never returned, whatever it
    would have scored. *)
Theorem text_search_considers_first_matches (this : SearchAgent) (d : Db)
    (q : string) (input : Input) (docs : list Document) (log : list Event) :
  db this = Some d -> vectorizer this = None ->
  query input = JString q -> db_failure d = None -> maxResults this <> O ->
  exists resp pq,
    _process this input {| agent_results := docs; io_log := log |}
    = (inr resp,
       {| agent_results := docs;
          io_log := (log ++ [Find (text_query pq input)
                                  (maxResults this)])%list |})
    /\ processed_query resp = pq
    /\ incl (map id (results resp))
            (map _id
               (firstn (maxResults this)
                  (filter (db_matches d (text_query pq input)) docs))).
Proof.
  intros Hdb Hv Hq Hok Hmax.
  unfold _process. rewrite Hdb, Hq. unfold bind.
  rewrite (processQuery_without_vectorizer this q _ Hv).
  rewrite Hv, andb_false_r.
  rewrite (performTextSearch_run this _ input Hdb), Hok.
  eexists. eexists. split; [reflexivity|]. split; [reflexivity|].
  cbn [results]. unfold rankResults. rewrite map_map. cbn [id].
  intros x Hx. apply in_map_iff in Hx as [a [<- Ha]].
  apply (Permutation_in _ (sort_perm lower_score _)) in Ha.
  apply filter_In in Ha as [Ha _].
  apply in_map_iff in Ha as [doc [<- Hdoc]]. cbn [document].
  apply in_map. destruct (maxResults this); [contradiction|exact Hdoc].
Qed.

Lemma text_search_considers_first_matches_witness :
  exists resp pq,
    _process (Examples.agent_with (Some Examples.plain_db) false None)
             (Examples.ask "machine")
             (Examples.world_of [Examples.doc_ml; Examples.doc_hi])
    = (inr resp,
       {| agent_results := [Examples.doc_ml; Examples.doc_hi];
          io_log := [Find (text_query pq (Examples.ask "machine")) 10] |})
    /\ processed_query resp = pq
    /\ incl (map id (results resp)) ["a"; "d1"].
Proof.
  exact (text_search_considers_first_matches
           (Examples.agent_with (Some Examples.plain_db) false None)
           (Examples.ask "machine")
           [Examples.doc_ml; Examples.doc_hi] []
           eq_refl eq_refl eq_refl eq_refl ltac:(discriminate)).
Defined.

(** X14: when the store advertises the index [vector_index], the vector
    search encodes the query, lists the collections and sends one aggregation
    with [numCandidates = maxResults * 10] and [limit = maxResults]; it
    fetches no document with [find] and encodes none. The scores of the index
    are ranked as they come. *)
Theorem delegated_search_calls (this : SearchAgent) (d : Db)
    (enc : Vectorizer) (q : string) (v : list R) (input : Input)
    (docs : list Document) (log : list Event) :
  db this = Some d -> vectorizer this = Some enc ->
  useVectorSearch this = true -> query input = JString q ->
  db_failure d = None -> hasVectorIndex (db_collections d) = true ->
  encode enc q = inr v ->
  let sent :=
    {| q_or := None;
       q_vectorSearch :=
         Some {| queryVector := Some v;
                 path := "vector_embedding";
                 numCandidates := maxResults this * 10;
                 limit := maxResults this;
                 index := "vector_index" |};
       q_agent := agent_filter input;
       q_created_at := date_filter input |} in
  exists resp,
    _process this input {| agent_results := docs; io_log := log |}
    = (inr resp,
       {| agent_results := docs;
          io_log :=
            (log ++ [Encode q; ListCollections; Aggregate sent])%list |})
    /\ map (fun r => (id r, result_score r)) (results resp)
       = map (fun a => (_id (document a), score a))
           (sort lower_score
              (filter (fun a => geb (score a) (minScore this))
                 (map (fun a => {| document := snd a; score := Fin (fst a) |})
                      (db_vectorSearch d sent docs)))).
Proof.
  intros Hdb Hv Hu Hq Hok Hidx Henc sent.
  unfold _process. rewrite Hdb, Hq. unfold bind at 1.
  rewrite (processQuery_with_vectorizer this q _ Hv Henc).
  rewrite Hu, Hv. cbn [is_some andb]. unfold bind at 1.
  unfold performVectorSearch. rewrite Hv. unfold bind at 1.
  unfold with_db, listCollections_toArray, command. rewrite Hdb, Hok, Hidx.
  unfold record. cbn [agent_results io_log].
  rewrite (performMongoDBVectorSearch_run this _ input Hdb), Hok.
  eexists. split.
  - unfold ret. rewrite <- !app_assoc. reflexivity.
  - cbn [results]. unfold rankResults. now rewrite map_map.
Qed.

Lemma delegated_search_calls_witness :
  exists resp,
    fst (_process (Examples.agent_with (Some indexed_db) true
                     (Some (Examples.constant_encoder [1%R])))
                  (Examples.ask "north")
                  (Examples.world_of [Examples.doc_north]))
    = inr resp
    /\ List.length (results resp) = 1.
Proof.
  destruct (delegated_search_calls
              (Examples.agent_with (Some indexed_db) true
                 (Some (Examples.constant_encoder [1%R])))
              (d := indexed_db) (enc := Examples.constant_encoder [1%R])
              (q := "north") (v := [1%R])
              (Examples.ask "north") [Examples.doc_north] []
              eq_refl eq_refl eq_refl eq_refl eq_refl eq_refl eq_refl)
    as [resp [Hrun Hscores]].
  exists resp. split; [unfold Examples.world_of; now rewrite Hrun|].
  apply (f_equal (@List.length (string * num))) in Hscores.
  rewrite !length_map, sort_length in Hscores.
  cbn [indexed_db db_vectorSearch map filter score geb fst snd minScore
       Examples.agent_with constructor or_number opt_minScore] in Hscores.
  assert (Hge : Rleb (5 / 10) (9 / 10) = true) by (apply Rleb_true; lra).
  rewrite Hge in Hscores. exact Hscores.
Defined.

(** X15: whatever the outcome, [_process] leaves the stored documents as
    they are: it only adds calls at the end of the log, and none of them is
    a write to the store, such as the [insertOne] of the ingestion. *)
Theorem process_never_writes (this : SearchAgent) (input : Input)
    (w : World) :
  agent_results (snd (_process this input w)) = agent_results w
  /\ exists made,
       io_log (snd (_process this input w)) = (io_log w ++ made)%list
       /\ Forall (fun ev => is_write ev = false) made.
Proof.
  rewrite (reads_only_run w (reads_only_process this input)).
  cbn [snd agent_results io_log]. split; [reflexivity|].
  eexists. split; [reflexivity|].
  apply (reads_only_process this input (agent_results w) []).
Qed.

End PipelineFacts.

(* ===================================================================== *)
(** ** Validation and routing *)
(* ===================================================================== *)

Module ValidationFacts.

Import JsString JsNum Search Notions Manager.
Local Open Scope string_scope.

(** X16: once the base class has accepted the input, [validateInput] accepts
    it exactly when the query is a non-empty string; a falsy query ([0],
    [NaN], [false], ...) is reported as missing, and only a truthy value that
    is not a string is reported as not being a string. *)
Theorem validateInput_verdict (super_validateInput : Input -> Error + unit)
    (input : Input) (u : unit) :
  super_validateInput input = inr u ->
  (validateInput super_validateInput input = inr tt
   <-> exists s, query input = JString s /\ s <> "")
  /\ (truthy_value (query input) = false ->
      validateInput super_validateInput input
      = inl (JsError "Search query is required"))
  /\ (truthy_value (query input) = true ->
      (forall s, query input <> JString s) ->
      validateInput super_validateInput input
      = inl (JsError "Search query must be a string")).
Proof.
  intros Hs. unfold validateInput. rewrite Hs. split; [|split].
  - destruct (query input) as [| |b|n|s|]; cbn [truthy_value negb].
    + split; [discriminate|]. intros [s [H _]]. discriminate.
    + split; [discriminate|]. intros [s [H _]]. discriminate.
    + destruct b; cbn; (split; [discriminate|]);
        intros [s [H _]]; discriminate.
    + destruct (JsNum.truthy n); cbn; (split; [discriminate|]);
        intros [s [H _]]; discriminate.
    + destruct s as [|c s]; cbn.
      * split; [discriminate|]. intros [s [H Hne]].
        inversion H; subst. contradiction.
      * split; [|reflexivity]. intros _. eexists. split; [reflexivity|].
        discriminate.
    + split; [discriminate|]. intros [s [H _]]. discriminate.
  - intros Hf. now rewrite Hf.
  - intros Ht Hn. rewrite Ht. cbn [negb].
    destruct (query input) as [| | | |s|]; try reflexivity.
    exfalso. exact (Hn s eq_refl).
Qed.

Lemma validateInput_verdict_witness :
  validateInput Examples.accept_all
    {| query := JNumber (Fin 0); filters := None |}
  = inl (JsError "Search query is required")
  /\ validateInput Examples.accept_all
       {| query := JBool true; filters := None |}
     = inl (JsError "Search query must be a string")
  /\ validateInput Examples.accept_all (Examples.ask "machine") = inr tt.
Proof.
  split; [|split].
  - apply (proj1 (proj2 (validateInput_verdict Examples.accept_all
                           {| query := JNumber (Fin 0); filters := None |}
                           eq_refl))).
    cbn. unfold Reqb. destruct (Req_dec_T 0 0); [reflexivity|contradiction].
  - apply (proj2 (proj2 (validateInput_verdict Examples.accept_all
                           {| query := JBool true; filters := None |}
                           eq_refl))); [reflexivity|discriminate].
  - apply (proj1 (validateInput_verdict Examples.accept_all
                    (Examples.ask "machine") eq_refl)).
    exists "machine". split; [reflexivity|discriminate].
Defined.

(** X17: the routing of the manager sends a request with a truthy query to
    the PDF, image or search agent, never to the live-data agent and never to
    an error; it chooses the search agent only for a truthy query, the
    live-data agent only when the query is falsy, and fails only when both
    the query and the source are falsy. *)
Theorem routing_of_requests (input : Request) :
  (truthy_value (request_query input) = true ->
   exists a, determineAgent input = inr a
             /\ In a ["pdf"; "image"; "search"])
  /\ (determineAgent input = inr "search" ->
      truthy_value (request_query input) = true)
  /\ (determineAgent input = inr "live_data" ->
      truthy_value (request_query input) = false
      /\ truthy_value (request_source input) = true)
  /\ (forall e, determineAgent input = inl e ->
                truthy_value (request_query input) = false
                /\ truthy_value (request_source input) = false
                /\ e = JsError
                         "Could not determine appropriate agent for input").
Proof.
  unfold determineAgent.
  destruct (request_file input) as [file|];
    [destruct (_ || _); [|destruct (_ || _)]|];
    destruct (truthy_value (request_query input));
    destruct (truthy_value (request_source input));
    repeat split; intros; try discriminate; try reflexivity;
    try (eexists; split; [reflexivity|]; cbn; tauto);
    try match goal with H : inl _ = inl _ |- _ => now inversion H end.
Qed.

Lemma routing_of_requests_witness :
  truthy_value (request_query query_request) = true
  /\ exists a, determineAgent pdf_request = inr a
               /\ In a ["pdf"; "image"; "search"].
Proof.
  split.
  - exact (proj1 (proj2 (routing_of_requests query_request)) eq_refl).
  - exact (proj1 (routing_of_requests pdf_request) eq_refl).
Defined.

(** X18: the extension of the file is compared in lower case: writing the
    file name in lower case does not change the routing. *)
Theorem routing_ignores_file_name_case (name : string)
    (type : option string) (q source : JsValue) :
  determineAgent
    {| request_file := Some {| file_name := Some (toLowerCase name);
                               file_type := type |};
       request_query := q; request_source := source |}
  = determineAgent
      {| request_file := Some {| file_name := Some name;
                                 file_type := type |};
         request_query := q; request_source := source |}.
Proof.
  unfold determineAgent. cbn [request_file file_name file_type or_empty].
  now rewrite QueryFacts.toLowerCase_idempotent.
Qed.

(** The search reads the input through its query, its truthy agent label
    and its date range. *)
Lemma process_reads_filters (this : SearchAgent) (input input' : Input)
    (w : World) :
  query input = query input' ->
  agent_filter input = agent_filter input' ->
  date_filter input = date_filter input' ->
  _process this input w = _process this input' w.
Proof.
  intros Hq Ha Hd.
  unfold _process, performTextSearch, performVectorSearch,
    performMongoDBVectorSearch, performInMemoryVectorSearch.
  now rewrite Hq, Ha, Hd.
Qed.

(** X19: a filters object without a date range whose agent label is absent
    or empty is the same as no filters: the search makes the same calls and
    returns the same outcome. *)
Theorem empty_filters_are_no_filter (this : SearchAgent) (q : JsValue)
    (f : Filters) (w : World) :
  filter_dateRange f = None ->
  filter_agent f = None \/ filter_agent f = Some "" ->
  _process this {| query := q; filters := Some f |} w
  = _process this {| query := q; filters := None |} w.
Proof.
  intros Hd Ha. apply process_reads_filters.
  - reflexivity.
  - unfold agent_filter. cbn [filters].
    destruct Ha as [-> | ->]; reflexivity.
  - unfold date_filter. cbn [filters]. exact Hd.
Qed.

Lemma empty_filters_are_no_filter_witness :
  _process Examples.text_agent
    {| query := JString "machine";
       filters := Some {| filter_agent := Some "";
                          filter_dateRange := None |} |}
    (Examples.world_of [Examples.doc_ml])
  = _process Examples.text_agent
      {| query := JString "machine"; filters := None |}
      (Examples.world_of [Examples.doc_ml]).
Proof.
  apply empty_filters_are_no_filter; [reflexivity|now right].
Defined.

End ValidationFacts.
